(** * automate-scanner-v2: storage drivers and the observer page

    A shallow embedding of
      - [src/databases/Database.js]  (classes [Mysql] and [Mongo]), and
      - [src/web/public/script.js]   (the browser page attached to the
        scan session),
    followed by the properties of the specification that concern them.

    Conventions of the embedding.
      - JavaScript numbers are integers ([Z]); [NaN] and fractions are
        left out, an invalid [Date] is [None].
      - An [async] method is a function from the world to a settlement
        and a new world; [await] is the bind of that monad.  A promise
        that is never settled is the settlement [Pending], and what a
        driver callback throws lands in the world's list of uncaught
        exceptions.
      - Each SQL template literal of the source is a constructor of
        [Sql] carrying the interpolated values; [console.log] output is
        not modelled. *)

From Stdlib Require Import ZArith List String Ascii Bool Lia DecimalString.
From stdpp Require Import gmap strings list fin_maps.

Set Default Proof Using "Type".

(* ===================================================================== *)
(** ** JavaScript values and errors                                        *)
(* ===================================================================== *)

Module Js.

Inductive Value : Type :=
| VUndefined
| VNull
| VBool (b : bool)
| VNum (n : Z)
| VStr (s : string).

#[global] Instance Value_eq_dec : EqDecision Value.
Proof. solve_decision. Defined.

(** [ToBoolean]: what [x ? a : b] and [x || y] test. *)
Definition truthy (v : Value) : bool :=
  match v with
  | VUndefined | VNull => false
  | VBool b => b
  | VNum n => negb (n =? 0)%Z
  | VStr s => negb (String.eqb s "")
  end.

Inductive Error : Type :=
| RangeError (message : string)
| TypeError (message : string)
| DriverError (code : string).

#[global] Instance Error_eq_dec : EqDecision Error.
Proof. solve_decision. Defined.

(** [s.split(sep)] for a one-character separator. *)
Fixpoint split (sep : ascii) (s : string) : list string :=
  match s with
  | EmptyString => [EmptyString]
  | String c rest =>
      if Ascii.eqb c sep then EmptyString :: split sep rest
      else match split sep rest with
           | piece :: pieces => String c piece :: pieces
           | [] => [String c EmptyString]
           end
  end.

(** [xs[0]] on the result of a split, which is never empty. *)
Definition first_piece (pieces : list string) : string :=
  match pieces with
  | piece :: _ => piece
  | [] => EmptyString
  end.

(** [s.replace(/\n/g, '<br>')]. *)
Fixpoint replace_newlines (s : string) : string :=
  match s with
  | EmptyString => EmptyString
  | String c rest =>
      if Ascii.eqb c "010"%char
      then String.append "<br>" (replace_newlines rest)
      else String c (replace_newlines rest)
  end.

(** Whether a character occurs in a string. *)
Fixpoint occurs (c : ascii) (s : string) : bool :=
  match s with
  | EmptyString => false
  | String c' rest => Ascii.eqb c' c || occurs c rest
  end.

(** [String(n)] for an integer. *)
Definition string_of_Z (n : Z) : string := NilZero.string_of_int (Z.to_int n).

(** Interpolation of a value in a template literal. *)
Definition to_text (v : Value) : string :=
  match v with
  | VUndefined => "undefined"
  | VNull => "null"
  | VBool true => "true"
  | VBool false => "false"
  | VNum n => string_of_Z n
  | VStr s => s
  end.

End Js.
Import Js.

(* ===================================================================== *)
(** ** The built-in [Date], after ECMA-262 (Date objects)                  *)
(* ===================================================================== *)

Module JsDate.
Local Open Scope Z_scope.

Definition msPerDay : Z := 86400000.
Definition msPerHour : Z := 3600000.
Definition msPerMinute : Z := 60000.
Definition msPerSecond : Z := 1000.

Definition Day (t : Z) : Z := t / msPerDay.

Definition DaysInYear (y : Z) : Z :=
  if negb (y mod 4 =? 0) then 365
  else if negb (y mod 100 =? 0) then 366
  else if negb (y mod 400 =? 0) then 365
  else 366.

Definition DayFromYear (y : Z) : Z :=
  365 * (y - 1970) + (y - 1969) / 4 - (y - 1901) / 100 + (y - 1601) / 400.

(** The largest [y] with [DayFromYear y <= Day t]: a first guess from
    the mean length of a year, moved by one where it is off. *)
Definition YearFromTime (t : Z) : Z :=
  let d := Day t in
  let y := 1970 + (d * 400) / 146097 in
  if d <? DayFromYear y then y - 1
  else if DayFromYear (y + 1) <=? d then y + 1
  else y.

Definition InLeapYear (t : Z) : Z :=
  if DaysInYear (YearFromTime t) =? 366 then 1 else 0.

Definition DayWithinYear (t : Z) : Z := Day t - DayFromYear (YearFromTime t).

(** Months are numbered from 0 (January). *)
Definition MonthFromTime (t : Z) : Z :=
  let d := DayWithinYear t in
  let leap := InLeapYear t in
  if d <? 31 then 0
  else if d <? 59 + leap then 1
  else if d <? 90 + leap then 2
  else if d <? 120 + leap then 3
  else if d <? 151 + leap then 4
  else if d <? 181 + leap then 5
  else if d <? 212 + leap then 6
  else if d <? 243 + leap then 7
  else if d <? 273 + leap then 8
  else if d <? 304 + leap then 9
  else if d <? 334 + leap then 10
  else 11.

Definition DateFromTime (t : Z) : Z :=
  let d := DayWithinYear t in
  let leap := InLeapYear t in
  match MonthFromTime t with
  | 0 => d + 1
  | 1 => d - 30
  | 2 => d - 58 - leap
  | 3 => d - 89 - leap
  | 4 => d - 119 - leap
  | 5 => d - 150 - leap
  | 6 => d - 180 - leap
  | 7 => d - 211 - leap
  | 8 => d - 242 - leap
  | 9 => d - 272 - leap
  | 10 => d - 303 - leap
  | _ => d - 333 - leap
  end.

Definition HourFromTime (t : Z) : Z := (t / msPerHour) mod 24.
Definition MinFromTime (t : Z) : Z := (t / msPerMinute) mod 60.
Definition SecFromTime (t : Z) : Z := (t / msPerSecond) mod 60.
Definition msFromTime (t : Z) : Z := t mod msPerSecond.

(** Decimal digits, most significant first, in a fixed width. *)
Definition digit (n : Z) : ascii := ascii_of_nat (48 + Z.to_nat (n mod 10)).

Fixpoint pad (width : nat) (n : Z) (tail : string) : string :=
  match width with
  | O => tail
  | S w => pad w (n / 10) (String (digit n) tail)
  end.

Definition pad2 (n : Z) : string := pad 2 n "".
Definition pad3 (n : Z) : string := pad 3 n "".

(** The year of the ISO format: four digits from 0 to 9999, otherwise
    a sign and six digits. *)
Definition isoYear (y : Z) : string :=
  if (0 <=? y) && (y <=? 9999) then pad 4 y ""
  else if y <? 0 then String "-" (pad 6 (- y) "")
  else String "+" (pad 6 y "").

(** The calendar date and the time of day of a time value. *)
Definition isoDate (t : Z) : string :=
  isoYear (YearFromTime t) +:+ "-" +:+ pad2 (MonthFromTime t + 1)
  +:+ "-" +:+ pad2 (DateFromTime t).

Definition timeOfDay (t : Z) : string :=
  pad2 (HourFromTime t) +:+ ":" +:+ pad2 (MinFromTime t) +:+ ":"
  +:+ pad2 (SecFromTime t).

(** No decimal digit is the character [c]. *)
Definition no_digit (c : ascii) : bool :=
  forallb (fun k => negb (Ascii.eqb (ascii_of_nat (48 + k)) c)) (seq 0 10).

(** A string against a pattern of fixed characters ([Some c]) and
    decimal digits ([None]). *)
Fixpoint shaped (pattern : list (option ascii)) (s : string) : bool :=
  match pattern, s with
  | [], EmptyString => true
  | Some c :: pattern', String c' s' => Ascii.eqb c' c && shaped pattern' s'
  | None :: pattern', String c' s' =>
      negb (no_digit c') && shaped pattern' s'
  | _, _ => false
  end.

(** [YYYY-MM-DD HH:MM:SS]. *)
Definition datetime_pattern : list (option ascii) :=
  [None; None; None; None; Some "-"%char; None; None; Some "-"%char;
   None; None; Some " "%char; None; None; Some ":"%char; None; None;
   Some ":"%char; None; None].

(** [new Date(timestamp)] for a number: [TimeClip]. *)
Definition newDate (timestamp : Z) : option Z :=
  if Z.abs timestamp <=? 8640000000000000 then Some timestamp else None.

(** [date.toISOString()]: always UTC; throws on an invalid date. *)
Definition toISOString (date : option Z) : Error + string :=
  match date with
  | None => inl (RangeError "Invalid time value")
  | Some t =>
      inr (isoYear (YearFromTime t) +:+ "-" +:+ pad2 (MonthFromTime t + 1)
           +:+ "-" +:+ pad2 (DateFromTime t)
           +:+ "T" +:+ pad2 (HourFromTime t) +:+ ":" +:+ pad2 (MinFromTime t)
           +:+ ":" +:+ pad2 (SecFromTime t) +:+ "." +:+ pad3 (msFromTime t)
           +:+ "Z")
  end.

Section LocalTime.
(** The host's offset from UTC in milliseconds at a given instant
    ([LocalTZA(t, true)]); a function of the instant because of
    daylight saving time. *)
Variable LocalTZA : Z -> Z.

Definition LocalTime (t : Z) : Z := t + LocalTZA t.

(** [TimeZoneString]: sign and HHMM of the offset (the host's name
    of the zone, which may follow in brackets, is left empty). *)
Definition TimeZoneString (t : Z) : string :=
  let offset := LocalTZA t in
  let absOffset := Z.abs offset in
  (if 0 <=? offset then "+" else "-")
  +:+ pad2 (HourFromTime absOffset) +:+ pad2 (MinFromTime absOffset).

(** [date.toTimeString()]: the time of day in local time. *)
Definition toTimeString (date : option Z) : string :=
  match date with
  | None => "Invalid Date"
  | Some t =>
      let tv := LocalTime t in
      pad2 (HourFromTime tv) +:+ ":" +:+ pad2 (MinFromTime tv) +:+ ":"
      +:+ pad2 (SecFromTime tv) +:+ " GMT" +:+ TimeZoneString t
  end.

(** The calendar date and the time of day of an instant, both in
    local time, as [YYYY-MM-DD HH:MM:SS]: the rendering the
    specification describes for the relational back end. *)
Definition localDateTime (t : Z) : string :=
  let tv := LocalTime t in
  isoDate tv +:+ " " +:+ timeOfDay tv.
End LocalTime.

End JsDate.

(* ===================================================================== *)
(** ** Promises and [async] functions                                      *)
(* ===================================================================== *)

Module Promise.

(** The state a promise ends in.  [Pending] is a promise that nobody
    settles: whoever awaits it never resumes. *)
Inductive Settlement (A : Type) : Type :=
| Pending
| Fulfilled (a : A)
| Rejected (e : Error).
Arguments Pending {A}.
Arguments Fulfilled {A} a.
Arguments Rejected {A} e.

(** An [async] function over a world [W]. *)
Definition Async (W A : Type) : Type := W -> Settlement A * W.

Definition ret {W A} (a : A) : Async W A := fun w => (Fulfilled a, w).

Definition throw {W A} (e : Error) : Async W A := fun w => (Rejected e, w).

(** [const x = await m; k x]. *)
Definition bind {W A B} (m : Async W A) (k : A -> Async W B) : Async W B :=
  fun w =>
    match m w with
    | (Fulfilled a, w') => k a w'
    | (Rejected e, w') => (Rejected e, w')
    | (Pending, w') => (Pending, w')
    end.

(** A synchronous call that returns or throws, inside an [async] body. *)
Definition lift {W A} (r : Error + A) : Async W A :=
  match r with
  | inl e => throw e
  | inr a => ret a
  end.

(** [try { await m } catch (e) { handler e }]. *)
Definition try_catch {W A} (m : Async W A) (handler : Error -> Async W A)
  : Async W A :=
  fun w =>
    match m w with
    | (Rejected e, w') => handler e w'
    | other => other
    end.

(** [for await (const x of xs) { await body x }] over an array. *)
Fixpoint for_await {W A} (xs : list A) (body : A -> Async W unit)
  : Async W unit :=
  match xs with
  | [] => ret tt
  | x :: rest => bind (body x) (fun _ => for_await rest body)
  end.

(** What the body of a driver callback did with the [resolve] and
    [reject] functions of the promise it closes over, and what it
    threw. *)
Inductive Call (A : Type) : Type :=
| Resolve (a : A)
| Reject (e : Error).
Arguments Resolve {A} a.
Arguments Reject {A} e.

Record Completion (A : Type) : Type := {
  calls : list (Call A);
  thrown : option Error
}.
Arguments calls {A} _.
Arguments thrown {A} _.

(** Only the first call settles a promise. *)
Definition settle {A} (cs : list (Call A)) : Settlement A :=
  match cs with
  | [] => Pending
  | Resolve a :: _ => Fulfilled a
  | Reject e :: _ => Rejected e
  end.

End Promise.
Import Promise.

Declare Scope async_scope.
Delimit Scope async_scope with async.
Notation "x <- m ;; k" := (bind m (fun x => k))
  (at level 100, m at next level, right associativity) : async_scope.
Notation "m ;;; k" := (bind m (fun _ => k))
  (at level 100, right associativity) : async_scope.

(* ===================================================================== *)
(** ** [src/databases/Database.js]                                         *)
(* ===================================================================== *)

Module User.
Record t : Type := { id : Value }.
End User.

Module Category.
Record t : Type := { id : Value }.
End Category.

Module Review.
Record t : Type := {
  id : Value;
  user : User.t;
  comment : Value;
  rating : Value;
  created : Z;
  modified : Z
}.
End Review.

Module Flow.
(** The argument of [addData]: a flow with its reviews.  [created] and
    [modified] are time values (milliseconds since the epoch). *)
Record t : Type := {
  id : Value;
  user : User.t;
  category : Category.t;
  title : Value;
  description : Value;
  downloads : Value;
  featured : Value;
  created : Z;
  modified : Z;
  uploadVersion : Value;
  dataVersion : Value;
  b64Data : Value;
  reviews : list Review.t
}.
End Flow.

Module Database.

(** The object [mysql.createConnection({host, user, password})]. *)
Record Connection : Type := {
  conn_host : string;
  conn_user : string;
  conn_password : string
}.

#[global] Instance Connection_eq_dec : EqDecision Connection.
Proof. solve_decision. Defined.

(** The statements the class sends, one constructor per template. *)
Inductive Sql : Type :=
| ShowTablesLike (pattern : string)
| DropTable (db table : string)
| ShowDatabasesLike (pattern : string)
| DropDatabase (db : string)
| CreateDatabase (db : string)
| Use (db : string)
| CreateRequest (tableName : string)
| InsertInto (db table : string) (columns : list string).

#[global] Instance Sql_eq_dec : EqDecision Sql.
Proof. solve_decision. Defined.

Definition Row : Type := list Value.

Record Query : Type := { sql : Sql; params : list Value }.

#[global] Instance Query_eq_dec : EqDecision Query.
Proof. solve_decision. Defined.

(** What can be seen of [makeQuery] on the wire: the statement going
    out, and the driver calling back with or without an error. *)
Inductive Event : Type :=
| Sent (q : Query)
| Settled (q : Query) (err : option Error).

(** The [mysql] package and the server behind it. *)
Record Driver (Server : Type) : Type := {
  db_connect : Connection -> Server -> option Error;
  db_query : Connection -> Sql -> list Value -> Server
             -> (Error + list Row) * Server
}.
Arguments db_connect {Server} _ _ _.
Arguments db_query {Server} _ _ _ _ _.

(** The fields of a [Mysql] object together with everything outside
    it. *)
Record World (Server : Type) : Type := {
  self_db : option Connection;
  self_dbName : option string;
  server : Server;
  trace : list Event;
  uncaught : list Error
}.
Arguments self_db {Server} _.
Arguments self_dbName {Server} _.
Arguments server {Server} _.
Arguments trace {Server} _.
Arguments uncaught {Server} _.

(** [new Mysql()] in front of a server. *)
Definition constructor {Server} (srv : Server) : World Server :=
  {| self_db := None; self_dbName := None; server := srv;
     trace := []; uncaught := [] |}.

Definition set_self {Server} (db : Connection) (dbName : string)
    (w : World Server) : World Server :=
  {| self_db := Some db; self_dbName := Some dbName; server := server w;
     trace := trace w; uncaught := uncaught w |}.

Definition set_server {Server} (srv : Server) (w : World Server)
  : World Server :=
  {| self_db := self_db w; self_dbName := self_dbName w; server := srv;
     trace := trace w; uncaught := uncaught w |}.

Definition log_events {Server} (evs : list Event) (w : World Server)
  : World Server :=
  {| self_db := self_db w; self_dbName := self_dbName w; server := server w;
     trace := trace w ++ evs; uncaught := uncaught w |}.

Definition raise_uncaught {Server} (e : Error) (w : World Server)
  : World Server :=
  {| self_db := self_db w; self_dbName := self_dbName w; server := server w;
     trace := trace w; uncaught := uncaught w ++ [e] |}.

(** [new Promise(executor)] where the executor only registers a
    callback with the driver and returns.  The callback runs later,
    from the event loop: its calls to [resolve] and [reject] settle
    the promise, and what it throws is not thrown to the executor, so
    it settles nothing and surfaces as an uncaught exception. *)
Definition callback_promise {Server A} (c : Completion A)
  : Async (World Server) A :=
  fun w =>
    (settle (calls c),
     match thrown c with
     | Some e => raise_uncaught e w
     | None => w
     end).

(** [`${this.dbName}`]. *)
Definition dbNameText {Server} (w : World Server) : string :=
  match self_dbName w with
  | Some name => name
  | None => "undefined"
  end.

Definition flows_columns : list string :=
  ["id"; "user_id"; "category_id"; "title"; "description"; "downloads";
   "featured"; "created"; "modified"; "upload-version"; "data-version";
   "base64-data"].

Definition reviews_columns : list string :=
  ["id"; "user_id"; "flow_id"; "comment"; "rating"; "created"; "modified"].

Section Mysql.
Context {Server : Type}.
Variable driver : Driver Server.
Variable LocalTZA : Z -> Z.

Local Open Scope async_scope.

(** The callback given to [db.connect]. *)
Definition connect_callback (db : Connection) (dbName : string)
    (err : option Error) (w : World Server)
  : Completion Connection * World Server :=
  match err with
  | Some e => ({| calls := []; thrown := Some e |}, w)
  | None => ({| calls := [Resolve db]; thrown := None |},
             set_self db dbName w)
  end.

Definition connect (host user password dbName : string)
  : Async (World Server) Connection :=
  fun w =>
    let db := {| conn_host := host; conn_user := user;
                 conn_password := password |} in
    let '(c, w') :=
      connect_callback db dbName (db_connect driver db (server w)) w in
    callback_promise c w'.

(** The callback given to [this.db.query]. *)
Definition query_callback (res : Error + list Row)
  : Completion (list Row) :=
  match res with
  | inl err => {| calls := [Reject err]; thrown := None |}
  | inr rows => {| calls := [Resolve rows]; thrown := None |}
  end.

Definition result_error {A} (res : Error + A) : option Error :=
  match res with
  | inl err => Some err
  | inr _ => None
  end.

Definition makeQuery (sql : Sql) (params : list Value)
  : Async (World Server) (list Row) :=
  fun w =>
    match self_db w with
    | None =>
        (Rejected (TypeError "Cannot read properties of undefined"), w)
    | Some db =>
        let q := {| sql := sql; params := params |} in
        let '(res, srv) := db_query driver db sql params (server w) in
        callback_promise (query_callback res)
          (log_events [Sent q; Settled q (result_error res)]
             (set_server srv w))
    end.

Definition deleteTable (tableName : string) : Async (World Server) unit :=
  fun w =>
    (res <- makeQuery (ShowTablesLike ("%" +:+ tableName +:+ "%")) [] ;;
     if (0 <? length res)%nat
     then makeQuery (DropTable (dbNameText w) tableName) [] ;;; ret tt
     else ret tt) w.

Definition prepareDatabase : Async (World Server) unit :=
  fun w =>
    let dbName := dbNameText w in
    (dbCount <- makeQuery (ShowDatabasesLike dbName) [] ;;
     (if (length dbCount =? 1)%nat
      then makeQuery (DropDatabase dbName) [] ;;; ret tt
      else ret tt) ;;;
     makeQuery (CreateDatabase dbName) [] ;;;
     makeQuery (Use dbName) [] ;;;
     ret tt) w.

Definition createTable (tableName : string) : Async (World Server) unit :=
  makeQuery (CreateRequest tableName) [] ;;; ret tt.

Definition setup : Async (World Server) unit :=
  prepareDatabase ;;;
  createTable "flows" ;;;
  createTable "reviews".

Definition mySqlDateTime (timestamp : Z) : Error + string :=
  let date := JsDate.newDate timestamp in
  match JsDate.toISOString date with
  | inl e => inl e
  | inr iso =>
      inr (first_piece (split "T" iso) +:+ " "
           +:+ first_piece (split " " (JsDate.toTimeString LocalTZA date)))
  end.

(** The two template calls of [addData], with their parameter
    arrays. *)
Definition flow_params (data : Flow.t) (created modified : string)
  : list Value :=
  [Flow.id data;
   User.id (Flow.user data);
   Category.id (Flow.category data);
   Flow.title data;
   Flow.description data;
   Flow.downloads data;
   VNum (if truthy (Flow.featured data) then 1 else 0);
   VStr created;
   VStr modified;
   Flow.uploadVersion data;
   Flow.dataVersion data;
   Flow.b64Data data].

Definition review_params (data : Flow.t) (review : Review.t)
    (created modified : string) : list Value :=
  [Review.id review;
   User.id (Review.user review);
   Flow.id data;
   Review.comment review;
   Review.rating review;
   VStr created;
   VStr modified].

Definition insertFlow (data : Flow.t) : Async (World Server) unit :=
  fun w =>
    (created <- lift (mySqlDateTime (Flow.created data)) ;;
     modified <- lift (mySqlDateTime (Flow.modified data)) ;;
     makeQuery (InsertInto (dbNameText w) "flows" flows_columns)
       (flow_params data created modified) ;;;
     ret tt) w.

Definition insertReview (data : Flow.t) (review : Review.t)
  : Async (World Server) unit :=
  fun w =>
    (created <- lift (mySqlDateTime (Review.created review)) ;;
     modified <- lift (mySqlDateTime (Review.modified review)) ;;
     makeQuery (InsertInto (dbNameText w) "reviews" reviews_columns)
       (review_params data review created modified) ;;;
     ret tt) w.

Definition addData (data : Flow.t) : Async (World Server) unit :=
  insertFlow data ;;;
  for_await (Flow.reviews data) (insertReview data).

(** [this.db.end(callback)]: the callback takes no error. *)
Definition disconnect : Async (World Server) unit :=
  fun w =>
    match self_db w with
    | None =>
        (Rejected (TypeError "Cannot read properties of undefined"), w)
    | Some _ => callback_promise {| calls := [Resolve tt]; thrown := None |} w
    end.

End Mysql.

End Database.

(* ===================================================================== *)
(** ** A MySQL server, as far as the statements above exercise it          *)
(* ===================================================================== *)

Module MysqlServer.
Import Database.

(** [LIKE]: [%] stands for any run of characters, [_] for any one
    character and a backslash takes the next character literally.
    Names are compared exactly (a server with case-sensitive names). *)
Definition backslash : ascii := "092"%char.

Fixpoint like (pattern : string) : string -> bool :=
  match pattern with
  | EmptyString => fun s => match s with EmptyString => true | _ => false end
  | String p rest =>
      if Ascii.eqb p "%" then
        fix any (s : string) : bool :=
          like rest s
          || match s with
             | EmptyString => false
             | String _ s' => any s'
             end
      else if Ascii.eqb p "_" then
        fun s => match s with
                 | EmptyString => false
                 | String _ s' => like rest s'
                 end
      else if Ascii.eqb p backslash then
        match rest with
        | EmptyString =>
            fun s => match s with
                     | String c EmptyString => Ascii.eqb c backslash
                     | _ => false
                     end
        | String q rest' =>
            fun s => match s with
                     | EmptyString => false
                     | String c s' => Ascii.eqb c q && like rest' s'
                     end
        end
      else
        fun s => match s with
                 | EmptyString => false
                 | String c s' => Ascii.eqb c p && like rest s'
                 end
  end.

(** A table is the list of its rows, oldest first; a row is the list
    of its column values in the order of the insert statements. *)
Record Server : Type := {
  host : string;
  accounts : gmap string string;
  databases : gmap string (gmap string (list Row));
  current : option string
}.

Definition with_databases (dbs : gmap string (gmap string (list Row)))
    (cur : option string) (srv : Server) : Server :=
  {| host := host srv; accounts := accounts srv; databases := dbs;
     current := cur |}.

Definition names_like {A} (pattern : string) (m : gmap string A)
  : list Row :=
  (fun name => [VStr name]) <$> filter (fun name => like pattern name = true)
                                       (elements (dom m)).

(** Modelled from the spec: [src/databases/sql-tables.json], the
    Schema Catalog read by [createTable], is not among the sources.
    The catalog holds the two tables "flows" and "reviews", and in
    both the column [id] is the unique identifier of a row. *)
Definition catalog : list string := ["flows"; "reviews"].

Definition row_id (r : Row) : option Value := head r.

Definition duplicate_id (r : Row) (rows : list Row) : bool :=
  bool_decide (Exists (fun r' => row_id r' = row_id r) rows).

Definition handshake (db : Connection) (srv : Server) : option Error :=
  if negb (String.eqb (conn_host db) (host srv)) then
    Some (DriverError "ECONNREFUSED")
  else if bool_decide (accounts srv !! conn_user db = Some (conn_password db))
  then None
  else Some (DriverError "ER_ACCESS_DENIED_ERROR").

Definition failed (code : string) (srv : Server)
  : (Error + list Row) * Server :=
  (inl (DriverError code), srv).

Definition done (srv : Server) : (Error + list Row) * Server :=
  (inr [], srv).

Definition execute (db : Connection) (stmt : Sql) (params : list Value)
    (srv : Server) : (Error + list Row) * Server :=
  match stmt with
  | ShowDatabasesLike pattern =>
      (inr (names_like pattern (databases srv)), srv)
  | ShowTablesLike pattern =>
      match current srv with
      | None => failed "ER_NO_DB_ERROR" srv
      | Some cur =>
          match databases srv !! cur with
          | None => failed "ER_BAD_DB_ERROR" srv
          | Some tables => (inr (names_like pattern tables), srv)
          end
      end
  | DropDatabase name =>
      match databases srv !! name with
      | None => failed "ER_DB_DROP_EXISTS" srv
      | Some _ =>
          done (with_databases (delete name (databases srv))
                  (if bool_decide (current srv = Some name) then None
                   else current srv) srv)
      end
  | CreateDatabase name =>
      match databases srv !! name with
      | Some _ => failed "ER_DB_CREATE_EXISTS" srv
      | None =>
          done (with_databases (<[name := ∅]> (databases srv))
                  (current srv) srv)
      end
  | Use name =>
      match databases srv !! name with
      | None => failed "ER_BAD_DB_ERROR" srv
      | Some _ => done (with_databases (databases srv) (Some name) srv)
      end
  | CreateRequest tableName =>
      if negb (bool_decide (tableName ∈ catalog)) then
        failed "ER_EMPTY_QUERY" srv
      else
        match current srv with
        | None => failed "ER_NO_DB_ERROR" srv
        | Some cur =>
            match databases srv !! cur with
            | None => failed "ER_BAD_DB_ERROR" srv
            | Some tables =>
                match tables !! tableName with
                | Some _ => failed "ER_TABLE_EXISTS_ERROR" srv
                | None =>
                    done (with_databases
                            (<[cur := <[tableName := []]> tables]>
                               (databases srv))
                            (current srv) srv)
                end
            end
        end
  | DropTable name table =>
      match databases srv !! name with
      | None => failed "ER_BAD_TABLE_ERROR" srv
      | Some tables =>
          match tables !! table with
          | None => failed "ER_BAD_TABLE_ERROR" srv
          | Some _ =>
              done (with_databases
                      (<[name := delete table tables]> (databases srv))
                      (current srv) srv)
          end
      end
  | InsertInto name table columns =>
      match databases srv !! name with
      | None => failed "ER_NO_SUCH_TABLE" srv
      | Some tables =>
          match tables !! table with
          | None => failed "ER_NO_SUCH_TABLE" srv
          | Some rows =>
              if negb (length columns =? length params)%nat then
                failed "ER_WRONG_VALUE_COUNT_ON_ROW" srv
              else if duplicate_id params rows then
                failed "ER_DUP_ENTRY" srv
              else
                done (with_databases
                        (<[name := <[table := rows ++ [params]]> tables]>
                           (databases srv))
                        (current srv) srv)
          end
      end
  end.

Definition driver : Driver Server :=
  {| db_connect := handshake; db_query := execute |}.

(** A name that reads the same as a [LIKE] pattern, between quotes
    and between backticks. *)
Fixpoint plain (name : string) : bool :=
  match name with
  | EmptyString => true
  | String c rest =>
      negb (Ascii.eqb c "%") && negb (Ascii.eqb c "_")
      && negb (Ascii.eqb c backslash) && negb (Ascii.eqb c "'")
      && negb (Ascii.eqb c "`") && plain rest
  end.

(** The tables of a database that [setup] has just created. *)
Definition fresh_tables : gmap string (list Row) :=
  <["reviews" := []]> (<["flows" := []]> ∅).

(** The server with the named database replaced by a fresh one, and
    selected. *)
Definition provision (name : string) (srv : Server) : Server :=
  with_databases (<[name := fresh_tables]> (databases srv)) (Some name) srv.

(** The rows of a table, [[]] when the table or its database is not
    there. *)
Definition table_rows (name table : string) (srv : Server) : list Row :=
  match databases srv !! name with
  | None => []
  | Some tables => default [] (tables !! table)
  end.

End MysqlServer.

(* ===================================================================== *)
(** ** [src/databases/Database.js], class [Mongo]                          *)
(* ===================================================================== *)

Module Mongo.

Definition Document : Type := list (string * Value).

(** A MongoDB deployment: databases, their collections, the documents
    of each collection. *)
Record Server : Type := {
  databases : gmap string (gmap string (list Document))
}.

(** [MongoClient.connect(uri, options)]: the promise of the [mongodb]
    package, rejected when the deployment cannot be reached. *)
Record Driver : Type := {
  client_connect : string -> list (string * Value) -> Server -> option Error
}.

(** The handle [connection.db(dbName)]. *)
Record Db : Type := { db_name : string }.

Record World : Type := {
  self_db : option Db;
  server : Server
}.

Definition count_collections (colls : gmap string (list Document)) : nat :=
  map_fold (fun _ docs n => (length docs + n)%nat) 0%nat colls.

(** The number of documents the deployment holds. *)
Definition count_documents (srv : Server) : nat :=
  map_fold (fun _ colls n => (count_collections colls + n)%nat) 0%nat
    (databases srv).

Section Methods.
Variable driver : Driver.

Definition connect (uri : string) (options : list (string * Value))
    (dbName : string) : Async World Db :=
  fun w =>
    match client_connect driver uri
            (options ++ [("useNewUrlParser", VBool true);
                         ("useUnifiedTopology", VBool true)])
            (server w) with
    | Some err => (Rejected err, w)
    | None =>
        let db := {| db_name := dbName |} in
        (Fulfilled db, {| self_db := Some db; server := server w |})
    end.

(** The body of [setup] is empty. *)
Definition setup : Async World unit := ret tt.
End Methods.

End Mongo.

(* ===================================================================== *)
(** ** [src/web/public/script.js]                                          *)
(* ===================================================================== *)

Module MysqlSettings.
Record t : Type := {
  host : string;
  user : string;
  password : string;
  dbName : string
}.
End MysqlSettings.

Module MongoSettings.
Record t : Type := {
  uri : string;
  options : list (string * Value);
  dbName : string
}.
End MongoSettings.

Module ServerSettings.
Record t : Type := {
  port : Value;
  openBrowser : bool
}.
End ServerSettings.

Module Script.

(** The configuration object.  [cores] and [port] are numbers in the
    configuration and strings once read back from the form. *)
Record Settings : Type := {
  dbType : string;
  mysql : MysqlSettings.t;
  mongo : MongoSettings.t;
  cores : Value;
  logging : bool;
  server : ServerSettings.t
}.

(** The initial value of [_settings]. *)
Definition default_settings : Settings :=
  {| dbType := "sql";
     mysql := {| MysqlSettings.host := "localhost";
                 MysqlSettings.user := "root";
                 MysqlSettings.password := "";
                 MysqlSettings.dbName := "automate-scanner" |};
     mongo := {| MongoSettings.uri := "mongodb://localhost/";
                 MongoSettings.options := [];
                 MongoSettings.dbName := "automate-scanner" |};
     cores := VNum 8;
     logging := true;
     server := {| ServerSettings.port := VNum 8080;
                  ServerSettings.openBrowser := false |} |}.

(** What jQuery and the browser make of text that the script hands
    them; neither is part of the sources.  [parse_inputs markup] are
    the text inputs that the elements built by [$(markup)] bring
    into the document, each with its id and its value, in document
    order.  [css_width text] is the width the style of an element
    holds after [.css('width', text)], [None] when the text is not
    taken and the style stays as it was. *)
Record Engine : Type := {
  parse_inputs : string -> list (string * string);
  css_width : string -> option string
}.

(** The select [#settings-database-type]: the values of the options
    that can be chosen, and the one that is selected, if any. *)
Record Select : Type := {
  options : list string;
  selected : option string
}.

(** The document of the settings page: the select of the database
    type, the text inputs with their value and the checkboxes with
    their state, by element id, and the engine that displays them.
    A control that is not in the document has no entry. *)
Record Form : Type := {
  database_type : option Select;
  texts : gmap string string;
  checks : gmap string bool;
  engine : Engine
}.

(** [$('#id').val()]: [None] is [undefined], or the [null] of a
    select without a selection. *)
Definition val (id : string) (f : Form) : option string :=
  if String.eqb id "settings-database-type"
  then database_type f ≫= selected
  else texts f !! id.

(** [.val(v)] on the select: the option with that value is selected,
    and no option is when none has it. *)
Definition choose (v : string) (s : Select) : Select :=
  {| options := options s;
     selected := if bool_decide (v ∈ options s) then Some v else None |}.

(** The text [.val(v)] hands to the element: [null] and [undefined]
    empty it, any other value goes in as its text. *)
Definition val_text (v : Value) : string :=
  match v with
  | VUndefined | VNull => EmptyString
  | _ => to_text v
  end.

(** [$('#id').val(v)]: nothing happens when the element is missing. *)
Definition set_val (id : string) (v : string) (f : Form) : Form :=
  if String.eqb id "settings-database-type" then
    {| database_type := choose v <$> database_type f;
       texts := texts f; checks := checks f; engine := engine f |}
  else
    {| database_type := database_type f;
       texts := match texts f !! id with
                | Some _ => <[id := v]> (texts f)
                | None => texts f
                end;
       checks := checks f; engine := engine f |}.

(** [$('#id').prop('checked')]. *)
Definition prop_checked (id : string) (f : Form) : option bool :=
  checks f !! id.

Definition set_checked (id : string) (b : bool) (f : Form) : Form :=
  {| database_type := database_type f;
     texts := texts f;
     checks := match checks f !! id with
               | Some _ => <[id := b]> (checks f)
               | None => checks f
               end;
     engine := engine f |}.

(** The scan view written into [#main-container] by [startScan]. *)
Inductive Click : Type := EmitStopScan | Reload.

Record ScanView : Type := {
  bar_classes : list string;
  bar_width : string;
  bar_text : string;
  scan_progress_area : string;
  logs_area : string;
  cancel_classes : list string;
  cancel_text : string;
  cancel_click : option Click
}.

(** Listeners added by [socket.on] inside [startScan].  The listener
    of 'logs' closes over the [#logs-area] element of its own call,
    named here by the index of the view it belongs to; the others
    look their elements up when they run. *)
Inductive Listener : Type :=
| OnLogs (logsArea : nat)
| OnStatus
| OnEnd.

#[global] Instance Listener_eq_dec : EqDecision Listener.
Proof. solve_decision. Defined.

(** The page: the script's variables and the document.  [views] are
    the scan views created so far, oldest first; the last one is in
    the document, the others were replaced and are detached. *)
Record Page : Type := {
  _settings : Settings;
  _status : option string;
  progressBar : option nat;
  form : Form;
  views : list ScanView;
  listeners : list Listener;
  toast : option (string * string)
}.

Definition set_settings (s : Settings) (p : Page) : Page :=
  {| _settings := s; _status := _status p; progressBar := progressBar p;
     form := form p; views := views p; listeners := listeners p;
     toast := toast p |}.

Definition set_status (st : string) (p : Page) : Page :=
  {| _settings := _settings p; _status := Some st;
     progressBar := progressBar p; form := form p; views := views p;
     listeners := listeners p; toast := toast p |}.

Definition set_form (f : Form) (p : Page) : Page :=
  {| _settings := _settings p; _status := _status p;
     progressBar := progressBar p; form := f; views := views p;
     listeners := listeners p; toast := toast p |}.

Definition set_views (vs : list ScanView) (p : Page) : Page :=
  {| _settings := _settings p; _status := _status p;
     progressBar := progressBar p; form := form p; views := vs;
     listeners := listeners p; toast := toast p |}.

Definition sendToast (header message : string) (p : Page) : Page :=
  {| _settings := _settings p; _status := _status p;
     progressBar := progressBar p; form := form p; views := views p;
     listeners := listeners p; toast := Some (header, message) |}.

Definition specific_ids : list string :=
  ["settings-database-sql-host"; "settings-database-sql-user";
   "settings-database-sql-password"; "settings-database-sql-name";
   "settings-database-mongo-uri"; "settings-database-mongo-name"].

Definition quote : string := String "034"%char EmptyString.

Definition newline : string := String "010"%char EmptyString.

Definition quoted (s : string) : string := quote +:+ s +:+ quote.

(** One label of the template of [generateDbSettings], the value
    spliced in between the quotes as it is. *)
Definition specific_label (label id value : string) (required : bool)
  : string :=
  newline +:+ "        <label class="
  +:+ quoted "d-block settings-database-specific" +:+ ">"
  +:+ newline +:+ "            " +:+ label +:+ ": <input type="
  +:+ quoted "text" +:+ " class=" +:+ quoted "form-control"
  +:+ " id=" +:+ quoted id +:+ " value=" +:+ quoted value
  +:+ (if required then " required" else "") +:+ ">"
  +:+ newline +:+ "        </label>".

(** The two template strings. *)
Definition sql_markup (s : Settings) : string :=
  specific_label "Host" "settings-database-sql-host"
    (MysqlSettings.host (mysql s)) true
  +:+ specific_label "User" "settings-database-sql-user"
        (MysqlSettings.user (mysql s)) false
  +:+ specific_label "Password" "settings-database-sql-password"
        (MysqlSettings.password (mysql s)) false
  +:+ specific_label "Database name" "settings-database-sql-name"
        (MysqlSettings.dbName (mysql s)) true
  +:+ newline +:+ "        ".

Definition mongo_markup (s : Settings) : string :=
  specific_label "Uri" "settings-database-mongo-uri"
    (MongoSettings.uri (mongo s)) true
  +:+ specific_label "Database name" "settings-database-mongo-name"
        (MongoSettings.dbName (mongo s)) true
  +:+ newline +:+ "        ".

(** The inputs of the elements [generateDbSettings] returns: those
    the engine builds from the template of the type; nothing for a
    type other than the two, where the result is [undefined]. *)
Definition generateDbSettings (e : Engine) (s : Settings) (type : string)
  : list (string * string) :=
  if String.eqb type "sql" then parse_inputs e (sql_markup s)
  else if String.eqb type "mongo" then parse_inputs e (mongo_markup s)
  else [].

Definition nonempty (entered : option string) : option string :=
  match entered with
  | Some EmptyString => None
  | other => other
  end.

(** [changeDbType(type)], [None] for a call without argument.  The
    elements of class [settings-database-specific] are the labels of
    the six inputs.  The new elements go after the parent of the
    select, so nothing is added when the select is missing; of two
    new inputs with one id, [$('#id')] finds the first. *)
Definition changeDbType (type : option string) (p : Page) : Page :=
  let select := "settings-database-type" in
  let type := default (default "sql" (nonempty (val select (form p))))
                      (nonempty type) in
  let f1 := set_val select type (form p) in
  let removed := foldr delete (texts f1) specific_ids in
  let added :=
    match database_type f1 with
    | Some _ => foldr (fun kv m => <[kv.1 := kv.2]> m) removed
                      (generateDbSettings (engine f1) (_settings p) type)
    | None => removed
    end in
  set_form {| database_type := database_type f1; texts := added;
              checks := checks f1; engine := engine f1 |} p.

Definition updateSettings (p : Page) : Page :=
  let p1 := changeDbType (Some (dbType (_settings p))) p in
  let s := _settings p1 in
  set_form
    (set_checked "settings-scan-logging" (logging s)
       (set_checked "settings-server-browser"
          (ServerSettings.openBrowser (server s))
          (set_val "settings-server-port"
             (val_text (ServerSettings.port (server s)))
             (set_val "settings-scan-cores" (val_text (cores s)) (form p1)))))
    p1.

(** [a || b] where [a] is a string or [undefined]. *)
Definition or_else {A} (inject : string -> A) (entered : option string)
    (stored : A) : A :=
  match entered with
  | Some EmptyString => stored
  | Some s => inject s
  | None => stored
  end.

(** [a === '' ? '' : a || b]. *)
Definition empty_or_else (entered : option string) (stored : string)
  : string :=
  match entered with
  | Some EmptyString => EmptyString
  | other => or_else (fun s => s) other stored
  end.

(** [typeof a === 'boolean' ? a : b]. *)
Definition boolean_or (entered : option bool) (stored : bool) : bool :=
  match entered with
  | Some b => b
  | None => stored
  end.

Definition getEnteredSettings (p : Page) : Settings :=
  let f := form p in
  let s := _settings p in
  let dbSqlPassword := val "settings-database-sql-password" f in
  let dbSqlUser := val "settings-database-sql-user" f in
  let serverOpenBrowser := prop_checked "settings-server-browser" f in
  let scanLogging := prop_checked "settings-scan-logging" f in
  {| dbType := or_else (fun x => x) (val "settings-database-type" f)
                       (dbType s);
     mysql :=
       {| MysqlSettings.host :=
            or_else (fun x => x) (val "settings-database-sql-host" f)
                    (MysqlSettings.host (mysql s));
          MysqlSettings.user :=
            empty_or_else dbSqlUser (MysqlSettings.user (mysql s));
          MysqlSettings.password :=
            empty_or_else dbSqlPassword (MysqlSettings.password (mysql s));
          MysqlSettings.dbName :=
            or_else (fun x => x) (val "settings-database-sql-name" f)
                    (MysqlSettings.dbName (mysql s)) |};
     mongo :=
       {| MongoSettings.uri :=
            or_else (fun x => x) (val "settings-database-mongo-uri" f)
                    (MongoSettings.uri (mongo s));
          MongoSettings.options := MongoSettings.options (mongo s);
          MongoSettings.dbName :=
            or_else (fun x => x) (val "settings-database-mongo-name" f)
                    (MongoSettings.dbName (mongo s)) |};
     cores := or_else VStr (val "settings-scan-cores" f) (cores s);
     logging := boolean_or scanLogging (logging s);
     server :=
       {| ServerSettings.port :=
            or_else VStr (val "settings-server-port" f)
                    (ServerSettings.port (server s));
          ServerSettings.openBrowser :=
            boolean_or serverOpenBrowser
                       (ServerSettings.openBrowser (server s)) |} |}.

(** The elements of the markup [startScan] writes. *)
Definition fresh_view : ScanView :=
  {| bar_classes := ["progress-bar"; "progress-bar-striped";
                     "progress-bar-animated"];
     bar_width := "100%";
     bar_text := "";
     scan_progress_area := "Initializing";
     logs_area := "";
     cancel_classes := ["btn"; "btn-outline-danger"; "ml-sm-auto";
                        "mr-sm-0"; "mx-auto"; "mt-sm-auto"; "mt-2"];
     cancel_text := "Cancel";
     cancel_click := None |}.

Definition set_logs_area (html : string) (v : ScanView) : ScanView :=
  {| bar_classes := bar_classes v; bar_width := bar_width v;
     bar_text := bar_text v; scan_progress_area := scan_progress_area v;
     logs_area := html; cancel_classes := cancel_classes v;
     cancel_text := cancel_text v; cancel_click := cancel_click v |}.

(** The 'status' listener on one view: the progress area takes the
    markup, the bar the width that the engine stores, if any. *)
Definition set_progress (html : string) (width : option string)
    (v : ScanView) : ScanView :=
  {| bar_classes := bar_classes v; bar_width := default (bar_width v) width;
     bar_text := bar_text v; scan_progress_area := html;
     logs_area := logs_area v; cancel_classes := cancel_classes v;
     cancel_text := cancel_text v; cancel_click := cancel_click v |}.

Definition set_bar (classes : list string) (text : string) (v : ScanView)
  : ScanView :=
  {| bar_classes := classes; bar_width := bar_width v; bar_text := text;
     scan_progress_area := scan_progress_area v; logs_area := logs_area v;
     cancel_classes := cancel_classes v; cancel_text := cancel_text v;
     cancel_click := cancel_click v |}.

Definition set_cancel (classes : list string) (text : string)
    (click : option Click) (v : ScanView) : ScanView :=
  {| bar_classes := bar_classes v; bar_width := bar_width v;
     bar_text := bar_text v; scan_progress_area := scan_progress_area v;
     logs_area := logs_area v; cancel_classes := classes;
     cancel_text := text; cancel_click := click |}.

Definition removeClass (c : string) (classes : list string) : list string :=
  filter (fun c' => c' <> c) classes.

Definition addClass (c : string) (classes : list string) : list string :=
  if bool_decide (c ∈ classes) then classes else classes ++ [c].

(** The index of the view that is in the document. *)
Definition current (p : Page) : nat := Nat.pred (length (views p)).

(** What [#logs-area] shows, when the document has one. *)
Definition displayed_logs (p : Page) : option string :=
  logs_area <$> last (views p).

(** [startScan(logs)], [None] for a call without argument. *)
Definition startScan (logs : option string) (p : Page) : Page :=
  let logsArea := length (views p) in
  let view :=
    set_cancel (cancel_classes fresh_view) (cancel_text fresh_view)
      (Some EmitStopScan)
      (match nonempty logs with
       | Some text => set_logs_area (replace_newlines text) fresh_view
       | None => fresh_view
       end) in
  {| _settings := _settings p; _status := _status p;
     progressBar := Some logsArea; form := form p;
     views := views p ++ [view];
     listeners := listeners p ++ [OnLogs logsArea; OnStatus; OnEnd];
     toast := toast p |}.

(** [endScan(stopped, error)]. *)
Definition endScan (stopped error : bool) (p : Page) : Page :=
  let cancelScanButton := current p in
  let on_bar (f : ScanView -> ScanView) (vs : list ScanView) :=
    match progressBar p with
    | Some bar => alter f bar vs
    | None => vs
    end in
  let strip v := set_bar (removeClass "progress-bar-striped" (bar_classes v))
                         (bar_text v) v in
  let warn v :=
    if stopped
    then set_bar (addClass "bg-warning" (bar_classes v)) "Scan cancelled" v
    else v in
  let danger v :=
    if error then set_bar (addClass "bg-danger" (bar_classes v)) (bar_text v) v
    else v in
  let success v :=
    if negb stopped && negb error
    then set_bar (addClass "bg-success" (bar_classes v)) (bar_text v) v
    else v in
  let recolour v :=
    if negb stopped && negb error
    then set_cancel (addClass "btn-outline-success"
                       (removeClass "btn-outline-danger" (cancel_classes v)))
                    (cancel_text v) (cancel_click v) v
    else v in
  let back v := set_cancel (cancel_classes v) "Back" (Some Reload) v in
  let vs1 := on_bar (fun v => success (danger (warn (strip v)))) (views p) in
  let vs2 := alter (fun v => back (recolour v)) cancelScanButton vs1 in
  set_status "end" (set_views vs2 p).

(** The messages of the server. *)
Inductive Message : Type :=
| Init (config : Settings) (status : string) (logs : option string)
| SettingsChanged (data : Settings)
| StartScan
| Logs (args : string)
| Status (text : list string) (percentage : Value)
| End (code : Value) (stopped : bool).

(** The 'status' listener: [#scan-progress-area] and [#progress-bar]
    are looked up in the document, so the view that is in it
    changes. *)
Definition show_status (text : list string) (percentage : Value) (p : Page)
  : Page :=
  set_views (alter (set_progress (String.concat "<br>" text)
                                 (css_width (engine (form p))
                                            (to_text percentage +:+ "%")))
                   (current p) (views p)) p.

(** One listener of [startScan] receiving a message. *)
Definition notify (msg : Message) (p : Page) (l : Listener) : Page :=
  match l, msg with
  | OnLogs logsArea, Logs args =>
      set_views (alter (set_logs_area (replace_newlines args)) logsArea
                       (views p)) p
  | OnStatus, Status text percentage => show_status text percentage p
  | OnEnd, End code stopped =>
      endScan stopped (negb (bool_decide (code = VNum 0)))
        (sendToast "Scan stopped"
           ("Scan ended with an exit code " +:+ to_text code) p)
  | _, _ => p
  end.

(** A message arriving on the socket: the listeners registered at the
    top of the script, then those added by [startScan], in the order
    of their registration. *)
Definition receive (msg : Message) (p : Page) : Page :=
  match msg with
  | Init config status logs =>
      let p1 := set_status status (set_settings config p) in
      if String.eqb status "idle" then
        sendToast "Settings loaded" "Settings are loaded from the config"
          (updateSettings p1)
      else if String.eqb status "scanning" then startScan logs p1
      else p1
  | SettingsChanged data =>
      let p1 := set_settings data p in
      if bool_decide (_status p1 = Some "idle") then
        sendToast "Settings changed" "Settings are reloaded from the config"
          (updateSettings p1)
      else p1
  | StartScan => startScan None p
  | _ => foldl (notify msg) p (listeners p)
  end.

(** The page once the script has run over a document whose form is
    [f]: no message has arrived yet. *)
Definition load (f : Form) : Page :=
  changeDbType (Some (dbType default_settings))
    {| _settings := default_settings; _status := None; progressBar := None;
       form := f; views := []; listeners := []; toast := None |}.

Definition run (history : list Message) (p : Page) : Page :=
  foldl (fun p msg => receive msg p) p history.

(** The views once the 'logs' listeners among [ls] have written
    [html] to their elements. *)
Definition write_logs (html : string) (ls : list Listener)
    (vs : list ScanView) : list ScanView :=
  foldl (fun vs l => match l with
                     | OnLogs logsArea => alter (set_logs_area html) logsArea vs
                     | _ => vs
                     end) vs ls.

(** Every scan view created so far has its 'logs' listener. *)
Definition listened (p : Page) : Prop :=
  forall i, (i < length (views p))%nat -> OnLogs i ∈ listeners p.

(** A field that is empty, or not in the document. *)
Definition blank (entered : option string) : Prop :=
  entered = None \/ entered = Some EmptyString.

(** The type [changeDbType] settles on. *)
Definition chosen_type (type : option string) (p : Page) : string :=
  default (default "sql" (nonempty (val "settings-database-type" (form p))))
          (nonempty type).

(** A field that is missing or shows the given value. *)
Definition shows (entered : option string) (v : string) : Prop :=
  entered = None \/ entered = Some v.

(** The inputs of a type with the stored settings as their values. *)
Definition stored_inputs (s : Settings) (type : string)
  : list (string * string) :=
  if String.eqb type "sql" then
    [("settings-database-sql-host", MysqlSettings.host (mysql s));
     ("settings-database-sql-user", MysqlSettings.user (mysql s));
     ("settings-database-sql-password", MysqlSettings.password (mysql s));
     ("settings-database-sql-name", MysqlSettings.dbName (mysql s))]
  else if String.eqb type "mongo" then
    [("settings-database-mongo-uri", MongoSettings.uri (mongo s));
     ("settings-database-mongo-name", MongoSettings.dbName (mongo s))]
  else [].

(** The engine reads the stored settings back from the markup as
    they are.  It does for strings that hold nothing the markup gives
    a meaning to; a double quote in one of them ends the value
    there, and a character reference is replaced by its character. *)
Definition reads_verbatim (e : Engine) (s : Settings) (type : string)
  : Prop :=
  generateDbSettings e s type = stored_inputs s type.

(** Two configurations that agree, numbers being compared as the text
    the form shows for them. *)
Definition same_settings (s' s : Settings) : Prop :=
  dbType s' = dbType s
  /\ mysql s' = mysql s
  /\ mongo s' = mongo s
  /\ logging s' = logging s
  /\ ServerSettings.openBrowser (server s')
     = ServerSettings.openBrowser (server s)
  /\ to_text (cores s') = to_text (cores s)
  /\ to_text (ServerSettings.port (server s'))
     = to_text (ServerSettings.port (server s)).

(** The listeners three by three, one group for every scan view, and
    [progressBar] on the view in the document. *)
Definition wired (p : Page) : Prop :=
  listeners p
  = flat_map (fun i => [OnLogs i; OnStatus; OnEnd]) (seq 0 (length (views p)))
  /\ progressBar p = match views p with
                     | [] => None
                     | _ => Some (current p)
                     end.

(** The 'end' listener, once. *)
Definition show_end (code : Value) (stopped : bool) (p : Page) : Page :=
  endScan stopped (negb (bool_decide (code = VNum 0)))
    (sendToast "Scan stopped"
       ("Scan ended with an exit code " +:+ to_text code) p).

Definition is_status (l : Listener) : bool :=
  match l with OnStatus => true | _ => false end.

Definition is_end (l : Listener) : bool :=
  match l with OnEnd => true | _ => false end.

(** What [endScan] does to the bar and to the button of one view. *)
Definition end_bar (stopped error : bool) (v : ScanView) : ScanView :=
  let strip v := set_bar (removeClass "progress-bar-striped" (bar_classes v))
                         (bar_text v) v in
  let warn v :=
    if stopped
    then set_bar (addClass "bg-warning" (bar_classes v)) "Scan cancelled" v
    else v in
  let danger v :=
    if error then set_bar (addClass "bg-danger" (bar_classes v)) (bar_text v) v
    else v in
  let success v :=
    if negb stopped && negb error
    then set_bar (addClass "bg-success" (bar_classes v)) (bar_text v) v
    else v in
  success (danger (warn (strip v))).

Definition end_button (stopped error : bool) (v : ScanView) : ScanView :=
  let recolour v :=
    if negb stopped && negb error
    then set_cancel (addClass "btn-outline-success"
                       (removeClass "btn-outline-danger" (cancel_classes v)))
                    (cancel_text v) (cancel_click v) v
    else v in
  set_cancel (cancel_classes (recolour v)) "Back" (Some Reload) (recolour v).

Definition end_views (stopped error : bool) (cur : nat) (bar : option nat)
    (vs : list ScanView) : list ScanView :=
  alter (end_button stopped error) cur
    (match bar with
     | Some b => alter (end_bar stopped error) b vs
     | None => vs
     end).

End Script.

(* ===================================================================== *)
(** ** Vocabulary of the properties                                        *)
(* ===================================================================== *)

Module Wire.
Import Database.

(** One statement sent and answered. *)
Definition round (q : Query) (err : option Error) : list Event :=
  [Sent q; Settled q err].

(** The statements of a trace, in the order they went out. *)
Fixpoint sent (tr : list Event) : list Query :=
  match tr with
  | [] => []
  | Sent q :: rest => q :: sent rest
  | Settled _ _ :: rest => sent rest
  end.

(** A trace on which no statement goes out before the one before it
    was answered. *)
Inductive sequential : list Event -> Prop :=
| sequential_nil : sequential []
| sequential_round q err rest :
    sequential rest -> sequential (Sent q :: Settled q err :: rest).

(** The table an insert statement writes to. *)
Definition targets (table : string) (q : Query) : bool :=
  match sql q with
  | InsertInto _ table' _ => String.eqb table' table
  | _ => false
  end.

Fixpoint position (column : string) (columns : list string) : option nat :=
  match columns with
  | [] => None
  | c :: rest =>
      if String.eqb c column then Some O else S <$> position column rest
  end.

(** The value an insert statement gives to a column. *)
Definition column_value (column : string) (q : Query) : option Value :=
  match sql q with
  | InsertInto _ _ columns =>
      match position column columns with
      | Some i => params q !! i
      | None => None
      end
  | _ => None
  end.

Section Statements.
Context {Server : Type}.
Variable driver : Driver Server.
Variable LocalTZA : Z -> Z.

(** The insert statement of a flow, unless one of its two dates
    cannot be written. *)
Definition flow_query (dbName : string) (data : Flow.t) : Error + Query :=
  match mySqlDateTime LocalTZA (Flow.created data) with
  | inl e => inl e
  | inr created =>
      match mySqlDateTime LocalTZA (Flow.modified data) with
      | inl e => inl e
      | inr modified =>
          inr {| sql := InsertInto dbName "flows" flows_columns;
                 params := flow_params data created modified |}
      end
  end.

Definition review_query (dbName : string) (data : Flow.t)
    (review : Review.t) : Error + Query :=
  match mySqlDateTime LocalTZA (Review.created review) with
  | inl e => inl e
  | inr created =>
      match mySqlDateTime LocalTZA (Review.modified review) with
      | inl e => inl e
      | inr modified =>
          inr {| sql := InsertInto dbName "reviews" reviews_columns;
                 params := review_params data review created modified |}
      end
  end.

(** The statements of one [addData], the flow first, then the
    reviews in the order of the input array. *)
Definition wanted (dbName : string) (data : Flow.t)
  : list (Error + Query) :=
  flow_query dbName data :: (review_query dbName data <$> Flow.reviews data).

(** The server after a list of statements that all succeed. *)
Fixpoint run_ok (db : Connection) (qs : list Query) (srv : Server)
  : option Server :=
  match qs with
  | [] => Some srv
  | q :: rest =>
      match db_query driver db (sql q) (params q) srv with
      | (inr _, srv') => run_ok db rest srv'
      | (inl _, _) => None
      end
  end.

(** One statement of [addData]: nothing when a date cannot be
    written, otherwise the query. *)
Definition insert_step (q : Error + Query) : Async (World Server) unit :=
  match q with
  | inl e => throw e
  | inr q => bind (makeQuery driver (sql q) (params q)) (fun _ => ret tt)
  end.

(** The world with a new server state and more events. *)
Definition advance (srv : Server) (evs : list Event) (w : World Server)
  : World Server :=
  {| self_db := self_db w; self_dbName := self_dbName w; server := srv;
     trace := trace w ++ evs; uncaught := uncaught w |}.

(** What a query leaves alone: the object's fields and the uncaught
    exceptions. *)
Definition same_self (w w' : World Server) : Prop :=
  self_db w' = self_db w /\ self_dbName w' = self_dbName w
  /\ uncaught w' = uncaught w.

(** The three ways a step can go. *)
Inductive step_outcome (q : Error + Query) (w : World Server)
  : Settlement unit * World Server -> Prop :=
| step_unwritable e :
    q = inl e -> step_outcome q w (Rejected e, w)
| step_unconnected q0 :
    q = inr q0 -> self_db w = None ->
    step_outcome q w
      (Rejected (TypeError "Cannot read properties of undefined"), w)
| step_answered q0 db res srv :
    q = inr q0 -> self_db w = Some db ->
    db_query driver db (sql q0) (params q0) (server w) = (res, srv) ->
    step_outcome q w
      (match res with inl e => Rejected e | inr _ => Fulfilled tt end,
       advance srv (round q0 (result_error res)) w).
End Statements.

(** The events of a run of steps and how it ends: it stops without a
    word, stops on the first statement that fails, or goes on. *)
Inductive steps_trace
  : list (Error + Query) -> list Event -> Settlement unit -> Prop :=
| steps_done : steps_trace [] [] (Fulfilled tt)
| steps_stop q qs e : steps_trace (q :: qs) [] (Rejected e)
| steps_fail q qs e :
    steps_trace (inr q :: qs) (round q (Some e)) (Rejected e)
| steps_ok q qs evs r :
    steps_trace qs evs r -> steps_trace (inr q :: qs) (round q None ++ evs) r.

(** An [async] method that always settles, keeps the fields of the
    object and lets no exception escape to the event loop. *)
Definition settles {Server A} (m : Async (World Server) A) : Prop :=
  forall w, (m w).1 <> Pending /\ same_self w (m w).2.

(** The statement is an insert into the given table of the given
    database. *)
Definition inserts_into (name table : string) (q : Query) : Prop :=
  exists columns, sql q = InsertInto name table columns.

End Wire.

(** Times and places used in the examples. *)
Module Examples.
Import Database MysqlServer.

Definition utc : Z -> Z := fun _ => 0%Z.

(** Ten hours east of Greenwich, all year. *)
Definition brisbane : Z -> Z := fun _ => 36000000%Z.

(** 2023-06-01T14:30:00Z. *)
Definition june_first : Z := 1685629800000.

Definition review (id : Z) (comment : string) : Review.t :=
  {| Review.id := VNum id;
     Review.user := {| User.id := VNum 7 |};
     Review.comment := VStr comment;
     Review.rating := VNum 5;
     Review.created := june_first;
     Review.modified := june_first |}.

(** A flow whose third review repeats the id of the first. *)
Definition flow : Flow.t :=
  {| Flow.id := VNum 42;
     Flow.user := {| User.id := VNum 7 |};
     Flow.category := {| Category.id := VNum 3 |};
     Flow.title := VStr "Battery saver";
     Flow.description := VStr "Turns things off";
     Flow.downloads := VNum 10;
     Flow.featured := VBool true;
     Flow.created := june_first;
     Flow.modified := june_first;
     Flow.uploadVersion := VNum 1;
     Flow.dataVersion := VNum 1;
     Flow.b64Data := VStr "AAAA";
     Flow.reviews := [review 1 "good"; review 2 "fine"; review 1 "again";
                      review 4 "late"] |}.

Definition root : Connection :=
  {| conn_host := "localhost"; conn_user := "root"; conn_password := "" |}.

(** A server on which [setup] has just run for "automate-scanner". *)
Definition provisioned : Server :=
  {| host := "localhost";
     accounts := {[ "root" := "" ]};
     databases := {[ "automate-scanner" := {[ "flows" := []; "reviews" := [] ]} ]};
     current := Some "automate-scanner" |}.

(** A server holding a report database "scan_db" with one flow, next
    to another database whose name differs in one character. *)
Definition shared : Server :=
  {| host := "localhost";
     accounts := {[ "root" := "" ]};
     databases := {[ "scan_db" := {[ "flows" := [[VNum 1]]; "reviews" := [] ]};
                     "scanXdb" := ∅ ]};
     current := None |}.

Definition connected (dbName : string) (srv : Server) : World Server :=
  set_self root dbName (constructor srv).

(** The statement of a result that is one. *)
Definition the_query (q : Error + Query) : Query :=
  match q with
  | inr q => q
  | inl _ => {| sql := Use ""; params := [] |}
  end.

Definition flow_statement : Query :=
  the_query (Wire.flow_query utc "automate-scanner" flow).

Definition review_statement (r : Review.t) : Query :=
  the_query (Wire.review_query utc "automate-scanner" flow r).

(** [provisioned] after the flow and its first two reviews went in. *)
Definition after_two_reviews : Server :=
  default provisioned
    (Wire.run_ok driver root
       [flow_statement; review_statement (review 1 "good");
        review_statement (review 2 "fine")]
       provisioned).

(** [flow] with other reviews. *)
Definition flow_with (reviews : list Review.t) : Flow.t :=
  {| Flow.id := Flow.id flow;
     Flow.user := Flow.user flow;
     Flow.category := Flow.category flow;
     Flow.title := Flow.title flow;
     Flow.description := Flow.description flow;
     Flow.downloads := Flow.downloads flow;
     Flow.featured := Flow.featured flow;
     Flow.created := Flow.created flow;
     Flow.modified := Flow.modified flow;
     Flow.uploadVersion := Flow.uploadVersion flow;
     Flow.dataVersion := Flow.dataVersion flow;
     Flow.b64Data := Flow.b64Data flow;
     Flow.reviews := reviews |}.

(** A review created beyond the last day a [Date] can hold. *)
Definition undated_review : Review.t :=
  {| Review.id := VNum 9;
     Review.user := {| User.id := VNum 7 |};
     Review.comment := VStr "when";
     Review.rating := VNum 1;
     Review.created := 9000000000000000;
     Review.modified := june_first |}.

(** [provisioned] after the flow and its first review went in. *)
Definition after_one_review : Server :=
  default provisioned
    (Wire.run_ok driver root
       [flow_statement; review_statement (review 1 "good")] provisioned).

(** A server whose report database lost "flows" and kept a copy of it
    under a longer name. *)
Definition archived : Server :=
  {| host := "localhost";
     accounts := {[ "root" := "" ]};
     databases := {[ "automate-scanner" :=
                       {[ "flows_old" := [[VNum 1]]; "reviews" := [] ]} ]};
     current := Some "automate-scanner" |}.

(** What is left of a text once a prefix is taken off. *)
Fixpoint strip_prefix (pre s : string) : option string :=
  match pre, s with
  | EmptyString, _ => Some s
  | String a pre', String b s' =>
      if Ascii.eqb a b then strip_prefix pre' s' else None
  | String _ _, EmptyString => None
  end.

(** The text after the first occurrence of a word. *)
Fixpoint after (word s : string) : option string :=
  match strip_prefix word s with
  | Some rest => Some rest
  | None =>
      match s with
      | String _ s' => after word s'
      | EmptyString => None
      end
  end.

(** The text up to a character, and the text after it. *)
Fixpoint until (stop : ascii) (s : string) : string * string :=
  match s with
  | EmptyString => (EmptyString, EmptyString)
  | String a s' =>
      if Ascii.eqb a stop then (EmptyString, s')
      else let rest := until stop s' in (String a rest.1, rest.2)
  end.

(** The [id] and the [value] of every input of a markup, read
    between double quotes, character references left as they are. *)
Fixpoint scan_inputs (fuel : nat) (markup : string)
  : list (string * string) :=
  match fuel with
  | O => []
  | S fuel =>
      match after (" id=" +:+ Script.quote) markup with
      | None => []
      | Some at_id =>
          let id := until "034" at_id in
          match after (" value=" +:+ Script.quote) id.2 with
          | None => []
          | Some at_value =>
              let value := until "034" at_value in
              (id.1, value.1) :: scan_inputs fuel value.2
          end
      end
  end.

(** A width with a minus sign becomes zero, as jQuery has it; any
    other text is stored. *)
Definition clamp_width (text : string) : option string :=
  match text with
  | String "-" _ => Some "0%"
  | _ => Some text
  end.

(** An engine for the examples: it reads the attributes between
    their quotes and clamps the width. *)
Definition scanner : Script.Engine :=
  {| Script.parse_inputs := fun markup =>
       scan_inputs (String.length markup) markup;
     Script.css_width := clamp_width |}.

(** A label of the template up to the quote that opens the value,
    and from the one that closes it. *)
Definition opening (label id : string) : string :=
  Script.newline +:+ "        <label class="
  +:+ Script.quoted "d-block settings-database-specific" +:+ ">"
  +:+ Script.newline +:+ "            " +:+ label +:+ ": <input type="
  +:+ Script.quoted "text" +:+ " class=" +:+ Script.quoted "form-control"
  +:+ " id=" +:+ Script.quoted id +:+ " value=" +:+ Script.quote.

Definition closing (required : bool) : string :=
  (if required then " required" else "") +:+ ">"
  +:+ Script.newline +:+ "        </label>".

(** Settings without a double quote in the strings that go into the
    markup. *)
Definition quote_free (s : Script.Settings) : Prop :=
  occurs "034" (MysqlSettings.host (Script.mysql s)) = false
  /\ occurs "034" (MysqlSettings.user (Script.mysql s)) = false
  /\ occurs "034" (MysqlSettings.password (Script.mysql s)) = false
  /\ occurs "034" (MysqlSettings.dbName (Script.mysql s)) = false
  /\ occurs "034" (MongoSettings.uri (Script.mongo s)) = false
  /\ occurs "034" (MongoSettings.dbName (Script.mongo s)) = false.

(** The default settings with a double quote in the password. *)
Definition quoted_settings : Script.Settings :=
  {| Script.dbType := "sql";
     Script.mysql :=
       {| MysqlSettings.host := "localhost";
          MysqlSettings.user := "root";
          MysqlSettings.password := "p" +:+ Script.quote +:+ "w";
          MysqlSettings.dbName := "automate-scanner" |};
     Script.mongo := Script.mongo Script.default_settings;
     Script.cores := Script.cores Script.default_settings;
     Script.logging := Script.logging Script.default_settings;
     Script.server := Script.server Script.default_settings |}.

(** A document with the select on "mongo", the two number inputs and
    the two checkboxes. *)
Definition settings_form : Script.Form :=
  {| Script.database_type :=
       Some {| Script.options := ["sql"; "mongo"];
               Script.selected := Some "mongo" |};
     Script.texts := {[ "settings-scan-cores" := "4";
                        "settings-server-port" := "80" ]};
     Script.checks := {[ "settings-scan-logging" := false;
                         "settings-server-browser" := true ]};
     Script.engine := scanner |}.

End Examples.

(* ===================================================================== *)
(** ** Properties of [mySqlDateTime]                                       *)
(* ===================================================================== *)

Module DateFacts.
Import JsDate Database.

Lemma append_assoc (a b c : string) : (a +:+ b) +:+ c = a +:+ (b +:+ c).
Proof.
  induction a as [| x a IH]; [reflexivity |].
  change (String x ((a +:+ b) +:+ c) = String x (a +:+ (b +:+ c))).
  rewrite IH. reflexivity.
Qed.

Lemma occurs_append c a b : occurs c (a +:+ b) = occurs c a || occurs c b.
Proof.
  induction a as [| x a IH]; [reflexivity |].
  change (Ascii.eqb x c || occurs c (a +:+ b)
          = Ascii.eqb x c || occurs c a || occurs c b).
  rewrite IH. apply orb_assoc.
Qed.

Lemma split_free sep a b :
  occurs sep a = false ->
  first_piece (split sep (a +:+ b)) = a +:+ first_piece (split sep b).
Proof.
  induction a as [| x a IH]; [reflexivity |].
  intros Hocc.
  change (Ascii.eqb x sep || occurs sep a = false) in Hocc.
  apply orb_false_elim in Hocc as [Hx Ha].
  specialize (IH Ha).
  change (first_piece
            (if Ascii.eqb x sep then EmptyString :: split sep (a +:+ b)
             else match split sep (a +:+ b) with
                  | piece :: pieces => String x piece :: pieces
                  | [] => [String x EmptyString]
                  end)
          = String x (a +:+ first_piece (split sep b))).
  rewrite Hx, <- IH.
  destruct (split sep (a +:+ b)) as [| piece pieces]; reflexivity.
Qed.

Lemma split_at sep b : first_piece (split sep (String sep b)) = EmptyString.
Proof.
  change (first_piece (if Ascii.eqb sep sep then EmptyString :: split sep b
                       else match split sep b with
                            | piece :: pieces => String sep piece :: pieces
                            | [] => [String sep EmptyString]
                            end) = EmptyString).
  rewrite Ascii.eqb_refl. reflexivity.
Qed.

Lemma append_nil_r (a : string) : a +:+ EmptyString = a.
Proof.
  induction a as [| x a IH]; [reflexivity |].
  change (String x (a +:+ EmptyString) = String x a). by rewrite IH.
Qed.

Lemma digit_not (c : ascii) (n : Z) :
  no_digit c = true -> Ascii.eqb (digit n) c = false.
Proof.
  intros Hall. unfold digit.
  assert (Z.to_nat (n mod 10) < 10)%nat as Hk
    by (pose proof (Z.mod_pos_bound n 10); lia).
  unfold no_digit in Hall. rewrite forallb_forall in Hall.
  apply negb_true_iff, Hall, in_seq. lia.
Qed.

Lemma pad_free c width : forall n tail,
  no_digit c = true ->
  occurs c tail = false -> occurs c (pad width n tail) = false.
Proof.
  induction width as [| w IH]; intros n tail Hc Ht; [exact Ht |].
  change (occurs c (pad w (n / 10) (String (digit n) tail)) = false).
  apply IH; [exact Hc |].
  change (Ascii.eqb (digit n) c || occurs c tail = false).
  rewrite (digit_not c n Hc), Ht. reflexivity.
Qed.

Lemma isoYear_free c y :
  no_digit c = true -> Ascii.eqb "-" c = false -> Ascii.eqb "+" c = false ->
  occurs c (isoYear y) = false.
Proof.
  intros Hc Hminus Hplus. unfold isoYear.
  destruct ((0 <=? y) && (y <=? 9999))%Z; [by apply pad_free |].
  destruct (y <? 0)%Z.
  - change (Ascii.eqb "-" c || occurs c (pad 6 (- y) "") = false).
    rewrite Hminus. by apply pad_free.
  - change (Ascii.eqb "+" c || occurs c (pad 6 y "") = false).
    rewrite Hplus. by apply pad_free.
Qed.

Lemma isoDate_free_T t : occurs "T" (isoDate t) = false.
Proof.
  unfold isoDate. rewrite !occurs_append.
  rewrite isoYear_free by reflexivity.
  unfold pad2. rewrite !pad_free by reflexivity. reflexivity.
Qed.

Lemma timeOfDay_free_space t : occurs " " (timeOfDay t) = false.
Proof.
  unfold timeOfDay. rewrite !occurs_append.
  unfold pad2. rewrite !pad_free by reflexivity. reflexivity.
Qed.

Lemma regroup5 (a b c d e x : string) :
  a +:+ b +:+ c +:+ d +:+ e +:+ x = (a +:+ b +:+ c +:+ d +:+ e) +:+ x.
Proof. rewrite !append_assoc. reflexivity. Qed.

Lemma toISOString_date t :
  exists clock,
    toISOString (Some t) = inr (isoDate t +:+ String "T" clock).
Proof.
  eexists. unfold toISOString, isoDate. f_equal.
  apply (regroup5 (isoYear (YearFromTime t)) "-" (pad2 (MonthFromTime t + 1))
           "-" (pad2 (DateFromTime t))).
Qed.

Section LocalTime.
Variable LocalTZA : Z -> Z.

Lemma toTimeString_time t :
  toTimeString LocalTZA (Some t)
  = timeOfDay (LocalTime LocalTZA t)
    +:+ String " " ("GMT" +:+ TimeZoneString LocalTZA t).
Proof.
  unfold toTimeString, timeOfDay. cbv zeta.
  apply (regroup5 (pad2 (HourFromTime (LocalTime LocalTZA t))) ":"
           (pad2 (MinFromTime (LocalTime LocalTZA t))) ":"
           (pad2 (SecFromTime (LocalTime LocalTZA t)))).
Qed.

(** What [mySqlDateTime] returns for every time value a [Date] can
    hold: the calendar date in UTC, then the time of day in local
    time. *)
Lemma mySqlDateTime_value t :
  (Z.abs t <= 8640000000000000)%Z ->
  mySqlDateTime LocalTZA t
  = inr (isoDate t +:+ " " +:+ timeOfDay (LocalTime LocalTZA t)).
Proof.
  intros Ht. unfold mySqlDateTime, newDate.
  rewrite (proj2 (Z.leb_le _ _) Ht).
  destruct (toISOString_date t) as [clock ->].
  rewrite toTimeString_time.
  rewrite (split_free "T" _ _ (isoDate_free_T t)), split_at.
  rewrite (split_free " " _ _ (timeOfDay_free_space _)), split_at.
  f_equal. rewrite !append_nil_r. reflexivity.
Qed.

Lemma mySqlDateTime_invalid t :
  (8640000000000000 < Z.abs t)%Z ->
  mySqlDateTime LocalTZA t = inl (RangeError "Invalid time value").
Proof.
  intros Ht. unfold mySqlDateTime, newDate.
  rewrite (proj2 (Z.leb_gt _ _) Ht). reflexivity.
Qed.
End LocalTime.

(** C3 (the code departs from it): ten hours east of Greenwich the
    instant 2023-06-01T14:30:00Z is 00:30:00 on the 2nd of June, and
    [mySqlDateTime] returns the 1st of June with that time of day;
    only where local time is UTC does it return
    [2023-06-01 14:30:00]. *)
Theorem mySqlDateTime_joins_utc_date_and_local_time :
  mySqlDateTime Examples.brisbane Examples.june_first
  = inr "2023-06-01 00:30:00"
  /\ localDateTime Examples.brisbane Examples.june_first
     = "2023-06-02 00:30:00"
  /\ mySqlDateTime Examples.utc Examples.june_first
     = inr "2023-06-01 14:30:00".
Proof. vm_compute. repeat split. Qed.

End DateFacts.

(* ===================================================================== *)
(** ** Properties of the class [Mysql], over any driver                    *)
(* ===================================================================== *)

Module DatabaseFacts.
Import Database Wire.

Lemma sequential_app tr1 tr2 :
  sequential tr1 -> sequential tr2 -> sequential (tr1 ++ tr2).
Proof. induction 1; intros; simpl; [done | constructor; auto]. Qed.

Lemma sent_app tr1 tr2 : sent (tr1 ++ tr2) = sent tr1 ++ sent tr2.
Proof.
  induction tr1 as [| [q | q err] tr1 IH]; simpl; [done | by rewrite IH | done].
Qed.

Section Generic.
Context {Server : Type}.
Variable driver : Driver Server.
Variable LocalTZA : Z -> Z.


Lemma same_self_dbNameText (w w' : World Server) : same_self w w' -> dbNameText w' = dbNameText w.
Proof. intros (_ & H & _). unfold dbNameText. by rewrite H. Qed.

Lemma insertFlow_step data w :
  insertFlow driver LocalTZA data w
  = insert_step driver (flow_query LocalTZA (dbNameText w) data) w.
Proof.
  unfold insertFlow, flow_query, insert_step, bind, lift.
  destruct (mySqlDateTime LocalTZA (Flow.created data)); simpl; [done |].
  destruct (mySqlDateTime LocalTZA (Flow.modified data)); simpl; done.
Qed.

Lemma insertReview_step data review w :
  insertReview driver LocalTZA data review w
  = insert_step driver (review_query LocalTZA (dbNameText w) data review) w.
Proof.
  unfold insertReview, review_query, insert_step, bind, lift.
  destruct (mySqlDateTime LocalTZA (Review.created review)); simpl; [done |].
  destruct (mySqlDateTime LocalTZA (Review.modified review)); simpl; done.
Qed.


Lemma insert_step_outcome q w :
  step_outcome driver q w (insert_step driver q w).
Proof.
  destruct q as [e | q0]; simpl.
  - by apply step_unwritable.
  - unfold bind, makeQuery.
    destruct (self_db w) as [db |] eqn:Hdb.
    + destruct (db_query driver db (sql q0) (params q0) (server w))
        as [res srv] eqn:Hq.
      destruct q0 as [s ps]; simpl in *.
      destruct res as [e | rows]; simpl;
        [ exact (step_answered driver _ w {| sql := s; params := ps |} db
                   (inl e) srv eq_refl Hdb Hq)
        | exact (step_answered driver _ w {| sql := s; params := ps |} db
                   (inr rows) srv eq_refl Hdb Hq) ].
    + by eapply step_unconnected.
Qed.


Lemma insert_step_same_self q w : same_self w (insert_step driver q w).2.
Proof.
  destruct (insert_step_outcome q w); simpl; by repeat split.
Qed.


Lemma for_await_steps qs w :
  exists evs,
    trace (for_await qs (insert_step driver) w).2 = trace w ++ evs
    /\ same_self w (for_await qs (insert_step driver) w).2
    /\ steps_trace qs evs (for_await qs (insert_step driver) w).1.
Proof.
  revert w. induction qs as [| q qs IH]; intros w; simpl.
  - exists []. rewrite app_nil_r. repeat split. constructor.
  - unfold bind at 1 2 3.
    destruct (insert_step_outcome q w) as [e Hq | q0 Hq Hdb | q0 db res srv Hq Hdb Hres].
    + exists []. rewrite app_nil_r. repeat split. constructor.
    + exists []. rewrite app_nil_r. repeat split. constructor.
    + destruct res as [e | rows]; simpl.
      * exists (round q0 (Some e)). subst q. repeat split; try done. constructor.
      * destruct (IH (advance srv (round q0 None) w))
          as (evs & Htr & (H1 & H2 & H3) & Hst).
        exists (round q0 None ++ evs). subst q.
        split; [by rewrite Htr; simpl; rewrite <- app_assoc |].
        split; [by repeat split |].
        by constructor.
Qed.

Lemma steps_trace_sequential qs evs r : steps_trace qs evs r -> sequential evs.
Proof. induction 1; repeat constructor; done. Qed.

Lemma steps_trace_prefix qs evs r :
  steps_trace qs evs r -> (inr <$> sent evs) `prefix_of` qs.
Proof.
  induction 1; simpl.
  - done.
  - apply prefix_nil.
  - apply prefix_cons, prefix_nil.
  - by apply prefix_cons.
Qed.

Lemma steps_trace_fulfilled qs evs :
  steps_trace qs evs (Fulfilled tt) -> inr <$> sent evs = qs.
Proof.
  remember (Fulfilled tt) as r eqn:Hr. induction 1; simpl; try done.
  f_equal. auto.
Qed.

Lemma for_await_reviews data reviews w :
  for_await reviews (insertReview driver LocalTZA data) w
  = for_await (review_query LocalTZA (dbNameText w) data <$> reviews)
      (insert_step driver) w.
Proof.
  revert w. induction reviews as [| r rs IH]; intros w; [done |].
  simpl. unfold bind. rewrite insertReview_step.
  pose proof (insert_step_same_self
                (review_query LocalTZA (dbNameText w) data r) w) as Hs.
  destruct (insert_step driver _ w) as [[| [] |] w1]; try done.
  simpl in Hs. rewrite IH. by rewrite (same_self_dbNameText _ _ Hs).
Qed.

Lemma addData_steps data w :
  addData driver LocalTZA data w
  = for_await (wanted LocalTZA (dbNameText w) data) (insert_step driver) w.
Proof.
  unfold addData, wanted. simpl. unfold bind. rewrite insertFlow_step.
  pose proof (insert_step_same_self
                (flow_query LocalTZA (dbNameText w) data) w) as Hs.
  destruct (insert_step driver _ w) as [[| [] |] w1]; try done.
  simpl in Hs. rewrite for_await_reviews. by rewrite (same_self_dbNameText _ _ Hs).
Qed.

Lemma flow_query_inr n data q :
  flow_query LocalTZA n data = inr q ->
  targets "flows" q = true /\ targets "reviews" q = false
  /\ column_value "id" q = Some (Flow.id data).
Proof.
  unfold flow_query.
  destruct (mySqlDateTime LocalTZA (Flow.created data)); [done |].
  destruct (mySqlDateTime LocalTZA (Flow.modified data)); [done |].
  intros [= <-]. done.
Qed.

Lemma review_query_inr n data review q :
  review_query LocalTZA n data review = inr q ->
  targets "reviews" q = true
  /\ column_value "flow_id" q = Some (Flow.id data)
  /\ column_value "id" q = Some (Review.id review).
Proof.
  unfold review_query.
  destruct (mySqlDateTime LocalTZA (Review.created review)); [done |].
  destruct (mySqlDateTime LocalTZA (Review.modified review)); [done |].
  intros [= <-]. done.
Qed.

Lemma wanted_flow_id n data q :
  inr q ∈ wanted LocalTZA n data ->
  targets "reviews" q = true ->
  column_value "flow_id" q = Some (Flow.id data).
Proof.
  unfold wanted. intros [Hq | Hq]%elem_of_cons Ht.
  - symmetry in Hq. apply flow_query_inr in Hq as (_ & Hf & _). congruence.
  - apply list_elem_of_fmap in Hq as (r & Hq & _).
    symmetry in Hq. by apply review_query_inr in Hq as (_ & ? & _).
Qed.

(** C2: every insert into "reviews" that [addData] sends gives the
    column [flow_id] the [id] of the flow of that same call, and no
    such insert goes out unless the insert of that flow went out
    first and succeeded. *)
Theorem addData_reviews_reference_own_flow (data : Flow.t) (w : World Server) :
  exists new : list Event,
    trace (addData driver LocalTZA data w).2 = trace w ++ new
    /\ Forall (fun q => targets "reviews" q = true ->
                        column_value "flow_id" q = Some (Flow.id data))
              (sent new)
    /\ (Exists (fun q => targets "reviews" q = true) (sent new) ->
        exists fq rest,
          new = round fq None ++ rest
          /\ targets "flows" fq = true
          /\ column_value "id" fq = Some (Flow.id data)).
Proof.
  rewrite addData_steps.
  destruct (for_await_steps (wanted LocalTZA (dbNameText w) data) w)
    as (evs & Htr & _ & Hst).
  exists evs. split; [done |]. split.
  - apply Forall_forall. intros q Hq.
    apply wanted_flow_id with (n := dbNameText w).
    apply steps_trace_prefix in Hst as [rest ->].
    apply elem_of_app. left. by apply list_elem_of_fmap_2.
  - intros Hex. unfold wanted in Hst.
    inversion Hst as [| q qs e | q qs e Hq | q qs evs' r Hrest Hq]; subst.
    + by apply Exists_nil in Hex.
    + simpl in Hex. apply Exists_cons in Hex as [Hex | Hex%Exists_nil]; [| done].
      symmetry in Hq. apply flow_query_inr in Hq as (_ & Hf & _). congruence.
    + symmetry in Hq. apply flow_query_inr in Hq as (Hf & _ & Hid).
      by exists q, evs'.
Qed.



Lemma insert_step_ok db q rows srv w :
  self_db w = Some db ->
  db_query driver db (sql q) (params q) (server w) = (inr rows, srv) ->
  insert_step driver (inr q) w = (Fulfilled tt, advance srv (round q None) w).
Proof.
  intros Hdb Hq. destruct q as [s ps]. simpl in *.
  unfold bind, makeQuery. rewrite Hdb, Hq. done.
Qed.

Lemma insert_step_failed db q e srv w :
  self_db w = Some db ->
  db_query driver db (sql q) (params q) (server w) = (inl e, srv) ->
  insert_step driver (inr q) w = (Rejected e, advance srv (round q (Some e)) w).
Proof.
  intros Hdb Hq. destruct q as [s ps]. simpl in *.
  unfold bind, makeQuery. rewrite Hdb, Hq. done.
Qed.

Lemma connect_refused host user password dbName e (w : World Server) :
  db_connect driver
    {| conn_host := host; conn_user := user; conn_password := password |}
    (server w) = Some e ->
  connect driver host user password dbName w = (Pending, raise_uncaught e w).
Proof. intros He. unfold connect, connect_callback. by rewrite He. Qed.

Lemma makeQuery_connected db stmt ps w :
  self_db w = Some db ->
  makeQuery driver stmt ps w
  = (match (db_query driver db stmt ps (server w)).1 with
     | inl e => Rejected e
     | inr rows => Fulfilled rows
     end,
     advance (db_query driver db stmt ps (server w)).2
       (round {| sql := stmt; params := ps |}
          (result_error (db_query driver db stmt ps (server w)).1)) w).
Proof.
  intros Hdb. unfold makeQuery. rewrite Hdb.
  by destruct (db_query driver db stmt ps (server w)) as [[e | rows] srv].
Qed.

Lemma advance_advance srv1 evs1 srv2 evs2 (w : World Server) :
  advance srv2 evs2 (advance srv1 evs1 w) = advance srv2 (evs1 ++ evs2) w.
Proof. unfold advance; simpl. by rewrite <- app_assoc. Qed.

Lemma for_await_run_ok db qs rest srv w :
  self_db w = Some db ->
  run_ok driver db qs (server w) = Some srv ->
  for_await ((inr <$> qs) ++ rest) (insert_step driver) w
  = for_await rest (insert_step driver)
      (advance srv (flat_map (fun q => round q None) qs) w).
Proof.
  revert w. induction qs as [| q qs IH]; intros w Hdb Hrun.
  - injection Hrun as <-. simpl. f_equal. destruct w; unfold advance; simpl.
    by rewrite app_nil_r.
  - cbn [run_ok] in Hrun. rewrite fmap_cons. cbn [app for_await flat_map].
    destruct (db_query driver db (sql q) (params q) (server w))
      as [[e | rows] s1] eqn:Hq; [done |].
    unfold bind at 1.
    rewrite (insert_step_ok db q rows s1 w Hdb Hq).
    rewrite (IH (advance s1 (round q None) w) Hdb Hrun).
    f_equal. unfold advance; simpl. by rewrite <- app_assoc.
Qed.

Lemma for_await_stops_at_failure db qs q rest e srv srv' w :
  self_db w = Some db ->
  run_ok driver db qs (server w) = Some srv ->
  db_query driver db (sql q) (params q) srv = (inl e, srv') ->
  for_await ((inr <$> qs) ++ inr q :: rest) (insert_step driver) w
  = (Rejected e,
     advance srv'
       (flat_map (fun q' => round q' None) qs ++ round q (Some e)) w).
Proof.
  intros Hdb Hrun Hfail.
  rewrite (for_await_run_ok db qs _ srv w Hdb Hrun).
  cbn [for_await]. unfold bind at 1.
  rewrite (insert_step_failed db q e srv'); [| done | done].
  f_equal. unfold advance; simpl. by rewrite <- !app_assoc.
Qed.

Lemma review_queries_fmap n data rs qs :
  Forall2 (fun r' q' => review_query LocalTZA n data r' = inr q') rs qs ->
  review_query LocalTZA n data <$> rs = inr <$> qs.
Proof. induction 1; simpl; [done | by f_equal]. Qed.

(** C1: [addData] sends the insert of the flow first and then the
    inserts of the reviews in the order of the input array, each
    one answered before the next goes out.  What it sends is always
    an initial part of that list, and the whole list when it
    succeeds.  On a connected object every statement of the list is
    sent as soon as the ones before it were answered without error:
    if the statements [qs] at the head of the list succeed, their
    rounds open the run in that order, followed by the round of the
    next statement whatever its answer; the run stops there without
    a word if a date of that next entry cannot be written, and it
    ends fulfilled, with exactly those rounds, if [qs] is the whole
    list. *)
Theorem addData_issues_flow_then_reviews_in_order (data : Flow.t) (w : World Server) :
  exists new : list Event,
    trace (addData driver LocalTZA data w).2 = trace w ++ new
    /\ sequential new
    /\ (inr <$> sent new) `prefix_of` wanted LocalTZA (dbNameText w) data
    /\ ((addData driver LocalTZA data w).1 = Fulfilled tt ->
        inr <$> sent new = wanted LocalTZA (dbNameText w) data)
    /\ (forall (db : Connection) (qs : list Query)
               (rest : list (Error + Query)) (srv : Server),
          self_db w = Some db ->
          wanted LocalTZA (dbNameText w) data = (inr <$> qs) ++ rest ->
          run_ok driver db qs (server w) = Some srv ->
          match rest with
          | [] =>
              new = flat_map (fun q => round q None) qs
              /\ addData driver LocalTZA data w
                 = (Fulfilled tt, advance srv new w)
          | inl e :: _ =>
              new = flat_map (fun q => round q None) qs
              /\ addData driver LocalTZA data w
                 = (Rejected e, advance srv new w)
          | inr q :: _ =>
              (flat_map (fun q => round q None) qs
               ++ round q (result_error
                             (db_query driver db (sql q) (params q) srv).1))
                `prefix_of` new
          end).
Proof.
  rewrite addData_steps.
  destruct (for_await_steps (wanted LocalTZA (dbNameText w) data) w)
    as (evs & Htr & _ & Hst).
  exists evs. split; [done |].
  split; [by eapply steps_trace_sequential |].
  split; [by eapply steps_trace_prefix |].
  split; [intros Hf; rewrite Hf in Hst; by apply steps_trace_fulfilled |].
  intros db qs rest srv Hdb Hw Hrun. clear Hst.
  rewrite Hw in Htr |- *.
  rewrite (for_await_run_ok db qs rest srv w Hdb Hrun) in Htr |- *.
  destruct rest as [| [e | q] rest'].
  - cbn [for_await] in Htr |- *. unfold ret in Htr |- *.
    cbn [snd advance trace] in Htr. apply app_inv_head in Htr. by subst evs.
  - cbn [for_await insert_step] in Htr |- *. unfold bind, throw in Htr |- *.
    cbn [snd advance trace] in Htr. apply app_inv_head in Htr. by subst evs.
  - cbn [for_await] in Htr. unfold bind at 1 in Htr.
    destruct (db_query driver db (sql q) (params q) srv)
      as [[e | rows] srv'] eqn:Hq; cbn [fst result_error].
    + rewrite (insert_step_failed db q e srv') in Htr by done.
      cbn [snd advance trace] in Htr. rewrite <- app_assoc in Htr.
      apply app_inv_head in Htr. by subst evs.
    + rewrite (insert_step_ok db q rows srv') in Htr by done.
      destruct (for_await_steps rest'
                  (advance srv' (round q None)
                     (advance srv (flat_map (fun q => round q None) qs) w)))
        as (evs' & Htr' & _ & _).
      rewrite Htr' in Htr. cbn [advance trace] in Htr.
      rewrite <- !app_assoc in Htr. apply app_inv_head in Htr. subst evs.
      rewrite app_assoc. by apply prefix_app_r.
Qed.

(** C6: [addData] is not atomic.  When the insert of the review at
    index [i] is the first statement to fail, the promise is
    rejected with that error, nothing is sent after it (no
    rollback), and the server is left as the failing statement left
    it after the flow and the reviews before [i] went in. *)
Theorem addData_keeps_what_was_inserted
    (data : Flow.t) (w : World Server) (db : Connection) (i : nat)
    (review : Review.t) (fq q : Query) (qs : list Query) (e : Error)
    (srv srv' : Server) :
  self_db w = Some db ->
  flow_query LocalTZA (dbNameText w) data = inr fq ->
  Forall2 (fun r' q' => review_query LocalTZA (dbNameText w) data r' = inr q')
          (take i (Flow.reviews data)) qs ->
  Flow.reviews data !! i = Some review ->
  review_query LocalTZA (dbNameText w) data review = inr q ->
  run_ok driver db (fq :: qs) (server w) = Some srv ->
  db_query driver db (sql q) (params q) srv = (inl e, srv') ->
  addData driver LocalTZA data w
  = (Rejected e,
     advance srv'
       (flat_map (fun q' => round q' None) (fq :: qs) ++ round q (Some e)) w).
Proof.
  intros Hdb Hfq Hqs Hi Hq Hrun Hfail.
  rewrite addData_steps. unfold wanted.
  rewrite <- (take_drop_middle _ _ _ Hi), fmap_app, fmap_cons.
  rewrite (review_queries_fmap _ _ _ _ Hqs), Hfq, Hq.
  change (inr fq :: (inr <$> qs) ++ inr q :: ?rest)
    with ((inr <$> fq :: qs) ++ inr q :: rest).
  by apply (for_await_stops_at_failure db (fq :: qs) q _ e srv srv').
Qed.


End Generic.
End DatabaseFacts.

(* ===================================================================== *)
(** ** Properties of the class [Mysql] in front of the MySQL server        *)
(* ===================================================================== *)

Module MysqlFacts.
Import Database Wire MysqlServer DatabaseFacts.

Lemma like_plain pattern s :
  plain pattern = true -> like pattern s = true <-> s = pattern.
Proof.
  revert s. induction pattern as [| p rest IH]; intros s Hp.
  - destruct s; simpl; split; done.
  - cbn [plain] in Hp.
    repeat (apply andb_prop in Hp as [Hp ?]).
    cbn [like].
    repeat match goal with
           | H : negb (Ascii.eqb ?a ?b) = true |- _ =>
               apply negb_true_iff in H; try rewrite H
           end.
    destruct s as [| c s']; [split; done |].
    rewrite andb_true_iff, Ascii.eqb_eq, IH by done.
    split; [intros [-> ->]; done | intros [= -> ->]; done].
Qed.

Lemma filter_eq_NoDup (name : string) (l : list string) :
  NoDup l ->
  filter (fun x => x = name) l = if bool_decide (name ∈ l) then [name] else [].
Proof.
  induction 1 as [| x l Hx Hnd IH].
  - done.
  - rewrite filter_cons. destruct (decide (x = name)) as [-> | Hne].
    + rewrite IH. rewrite (bool_decide_eq_false_2 _ Hx).
      rewrite bool_decide_eq_true_2; [done | by left].
    + rewrite IH. destruct (bool_decide (name ∈ l)) eqn:Hin.
      * apply bool_decide_eq_true_1 in Hin.
        rewrite bool_decide_eq_true_2; [done | by right].
      * apply bool_decide_eq_false_1 in Hin.
        rewrite bool_decide_eq_false_2; [done |].
        intros [? | ?]%elem_of_cons; congruence.
Qed.

Lemma names_like_plain {A} (name : string) (m : gmap string A) :
  plain name = true ->
  names_like name m = match m !! name with Some _ => [[VStr name]] | None => [] end.
Proof.
  intros Hp. unfold names_like.
  rewrite (list_filter_iff _ (fun x => x = name)) by (intros x; by apply like_plain).
  rewrite filter_eq_NoDup by apply NoDup_elements.
  destruct (m !! name) as [a |] eqn:Hm.
  - rewrite bool_decide_eq_true_2; [done |].
    apply elem_of_elements, elem_of_dom. eauto.
  - rewrite bool_decide_eq_false_2; [done |].
    rewrite elem_of_elements, elem_of_dom, Hm. by intros [? ?].
Qed.

Lemma execute_failed db stmt ps srv e srv' :
  execute db stmt ps srv = (inl e, srv') -> srv' = srv.
Proof.
  unfold execute, failed, done.
  destruct stmt; intros H;
    repeat (match type of H with
            | context [match ?x with _ => _ end] => destruct x
            end; simpl in H);
    congruence.
Qed.



Ltac query_step Hdb :=
  rewrite (makeQuery_connected driver _) by exact Hdb;
  cbn [db_query driver execute fst snd server advance with_databases
       databases current failed done result_error].

Lemma prepareDatabase_plain w db name :
  self_db w = Some db -> self_dbName w = Some name -> plain name = true ->
  exists evs,
    prepareDatabase driver w
    = (Fulfilled tt,
       advance (with_databases (<[name := ∅]> (databases (server w)))
                               (Some name) (server w)) evs w).
Proof.
  intros Hdb Hname Hp. unfold prepareDatabase, dbNameText. rewrite Hname.
  unfold bind, ret.
  query_step Hdb. rewrite names_like_plain by done.
  destruct (databases (server w) !! name) as [tables |] eqn:Hlook; simpl.
  - query_step Hdb. rewrite Hlook. simpl.
    query_step Hdb. rewrite lookup_delete_eq. simpl.
    query_step Hdb. rewrite lookup_insert_eq. simpl.
    rewrite insert_delete_eq. eexists. f_equal.
    unfold advance; simpl. rewrite <- !app_assoc. reflexivity.
  - query_step Hdb. rewrite Hlook. simpl.
    query_step Hdb. rewrite lookup_insert_eq. simpl.
    eexists. f_equal.
    unfold advance; simpl. rewrite <- !app_assoc. reflexivity.
Qed.


Lemma setup_plain w db name :
  self_db w = Some db -> self_dbName w = Some name -> plain name = true ->
  exists evs,
    setup driver w = (Fulfilled tt, advance (provision name (server w)) evs w).
Proof.
  intros Hdb Hname Hp. unfold setup.
  destruct (prepareDatabase_plain w db name Hdb Hname Hp) as [evs Hprep].
  unfold bind at 1. rewrite Hprep.
  unfold createTable, bind, ret.
  query_step Hdb. rewrite lookup_insert_eq. simpl. rewrite lookup_empty. simpl.
  query_step Hdb. rewrite lookup_insert_eq. simpl.
  rewrite lookup_insert_ne, lookup_empty by done. simpl.
  eexists. f_equal. unfold advance, provision, fresh_tables; simpl.
  rewrite !insert_insert_eq, <- !app_assoc. reflexivity.
Qed.

Lemma provision_provision name srv :
  provision name (provision name srv) = provision name srv.
Proof.
  unfold provision, with_databases; simpl. by rewrite insert_insert_eq.
Qed.

(** Relational [setup] under a plain name: it succeeds from every
    state of the server, leaves the named database with the two empty
    tables and nothing else, and a second run changes nothing. *)
Theorem setup_idempotent_under_plain_name
    (w : World Server) (db : Connection) (name : string) :
  self_db w = Some db -> self_dbName w = Some name -> plain name = true ->
  (setup driver w).1 = Fulfilled tt
  /\ server (setup driver w).2 = provision name (server w)
  /\ (setup driver (setup driver w).2).1 = Fulfilled tt
  /\ server (setup driver (setup driver w).2).2 = server (setup driver w).2.
Proof.
  intros Hdb Hname Hp.
  destruct (setup_plain w db name Hdb Hname Hp) as [evs ->]. simpl.
  destruct (setup_plain (advance (provision name (server w)) evs w) db name
              Hdb Hname Hp) as [evs' ->]. simpl.
  by rewrite provision_provision.
Qed.


(** C4 (the code departs from it): under the name "scan_db", on a
    server that also holds a database "scanXdb", [SHOW DATABASES LIKE]
    answers two rows, the old database is not dropped, [CREATE
    DATABASE] fails and [setup] is rejected with the server as it
    was, the old rows of "scan_db" included. *)
Theorem setup_rejected_beside_similar_name :
  let w := Examples.connected "scan_db" Examples.shared in
  (setup driver w).1 = Rejected (DriverError "ER_DB_CREATE_EXISTS")
  /\ server (setup driver w).2 = Examples.shared
  /\ table_rows "scan_db" "flows" (server (setup driver w).2) = [[VNum 1]]
  /\ sent (trace (setup driver w).2)
     = [ {| sql := ShowDatabasesLike "scan_db"; params := [] |};
         {| sql := CreateDatabase "scan_db"; params := [] |} ].
Proof. vm_compute. repeat split. Qed.

(** C7 (the code departs from it): with a wrong password the server
    refuses the handshake, the callback of [db.connect] throws, and
    the promise of [connect] stays pending for ever: the error is an
    uncaught exception of the process, a [catch] around the awaited
    call never runs, and the object is left unconnected. *)
Theorem connect_refused_never_settles :
  let w := constructor Examples.provisioned in
  let attempt := connect driver "localhost" "root" "wrong" "automate-scanner" in
  let recovered := {| conn_host := ""; conn_user := ""; conn_password := "" |} in
  (attempt w).1 = Pending
  /\ uncaught (attempt w).2 = [DriverError "ER_ACCESS_DENIED_ERROR"]
  /\ self_db (attempt w).2 = None
  /\ (try_catch attempt (fun _ => ret recovered) w).1 = Pending.
Proof. vm_compute. repeat split. Qed.

(** The witness of C6: the third review of [Examples.flow] repeats
    the id of the first, and the flow and the first two reviews stay
    in their tables. *)
Lemma addData_keeps_what_was_inserted_witness :
  addData driver Examples.utc Examples.flow
    (Examples.connected "automate-scanner" Examples.provisioned)
  = (Rejected (DriverError "ER_DUP_ENTRY"),
     advance Examples.after_two_reviews
       (flat_map (fun q' => round q' None)
          [Examples.flow_statement;
           Examples.review_statement (Examples.review 1 "good");
           Examples.review_statement (Examples.review 2 "fine")]
        ++ round (Examples.review_statement (Examples.review 1 "again"))
             (Some (DriverError "ER_DUP_ENTRY")))
       (Examples.connected "automate-scanner" Examples.provisioned))
  /\ length (table_rows "automate-scanner" "flows" Examples.after_two_reviews)
     = 1%nat
  /\ length (table_rows "automate-scanner" "reviews" Examples.after_two_reviews)
     = 2%nat.
Proof.
  split; [| split; vm_compute; reflexivity].
  apply (addData_keeps_what_was_inserted driver Examples.utc Examples.flow
           (Examples.connected "automate-scanner" Examples.provisioned)
           Examples.root 2 (Examples.review 1 "again")
           Examples.flow_statement
           (Examples.review_statement (Examples.review 1 "again"))
           [Examples.review_statement (Examples.review 1 "good");
            Examples.review_statement (Examples.review 2 "fine")]
           (DriverError "ER_DUP_ENTRY")
           Examples.after_two_reviews Examples.after_two_reviews).
  - reflexivity.
  - vm_compute. reflexivity.
  - repeat constructor.
  - reflexivity.
  - vm_compute. reflexivity.
  - vm_compute. reflexivity.
  - vm_compute. reflexivity.
Defined.

(** The witness of C1: the flow with two reviews, on a server where
    [setup] has run: the three inserts go out in the order flow,
    first review, second review, each answered before the next, and
    the promise is fulfilled. *)
Lemma addData_issues_flow_then_reviews_in_order_witness :
  exists new : list Event,
    trace (addData driver Examples.utc
             (Examples.flow_with [Examples.review 1 "good";
                                  Examples.review 2 "fine"])
             (Examples.connected "automate-scanner" Examples.provisioned)).2
    = trace (Examples.connected "automate-scanner" Examples.provisioned)
      ++ new
    /\ new
       = flat_map (fun q => round q None)
           [Examples.flow_statement;
            Examples.review_statement (Examples.review 1 "good");
            Examples.review_statement (Examples.review 2 "fine")]
    /\ addData driver Examples.utc
         (Examples.flow_with [Examples.review 1 "good";
                              Examples.review 2 "fine"])
         (Examples.connected "automate-scanner" Examples.provisioned)
       = (Fulfilled tt,
          advance Examples.after_two_reviews new
            (Examples.connected "automate-scanner" Examples.provisioned)).
Proof.
  destruct (addData_issues_flow_then_reviews_in_order driver Examples.utc
              (Examples.flow_with [Examples.review 1 "good";
                                   Examples.review 2 "fine"])
              (Examples.connected "automate-scanner" Examples.provisioned))
    as (new & Htr & _ & _ & _ & Hrun).
  exists new. split; [exact Htr |].
  apply (Hrun Examples.root
           [Examples.flow_statement;
            Examples.review_statement (Examples.review 1 "good");
            Examples.review_statement (Examples.review 2 "fine")]
           [] Examples.after_two_reviews).
  - reflexivity.
  - vm_compute. reflexivity.
  - vm_compute. reflexivity.
Defined.

Lemma setup_idempotent_under_plain_name_witness :
  (setup driver (Examples.connected "automate-scanner" Examples.shared)).1
  = Fulfilled tt
  /\ server (setup driver
               (Examples.connected "automate-scanner" Examples.shared)).2
     = provision "automate-scanner" Examples.shared
  /\ (setup driver
        (setup driver
           (Examples.connected "automate-scanner" Examples.shared)).2).1
     = Fulfilled tt
  /\ server
       (setup driver
          (setup driver
             (Examples.connected "automate-scanner" Examples.shared)).2).2
     = server (setup driver
                 (Examples.connected "automate-scanner" Examples.shared)).2.
Proof.
  apply (setup_idempotent_under_plain_name
           (Examples.connected "automate-scanner" Examples.shared)
           Examples.root "automate-scanner"); reflexivity.
Defined.

End MysqlFacts.

(* ===================================================================== *)
(** ** Properties of the class [Mongo]                                     *)
(* ===================================================================== *)

Module MongoFacts.
Import Mongo.

(** C5: [Mongo.setup] deletes nothing: it is fulfilled and leaves the
    deployment as it was, so the number of documents after it is not
    below the number before. *)
Theorem setup_keeps_documents (w : World) :
  (setup w).1 = Fulfilled tt
  /\ server (setup w).2 = server w
  /\ count_documents (server w) <= count_documents (server (setup w).2).
Proof. repeat split. reflexivity. Qed.

End MongoFacts.

(* ===================================================================== *)
(** ** Properties of the page                                              *)
(* ===================================================================== *)

Module ScriptFacts.
Import Script.

Lemma or_else_blank {A} (inject : string -> A) entered stored :
  blank entered -> or_else inject entered stored = stored.
Proof. by intros [-> | ->]. Qed.

Lemma or_else_entered {A} (inject : string -> A) s stored :
  s <> EmptyString -> or_else inject (Some s) stored = inject s.
Proof. by destruct s. Qed.

Lemma empty_or_else_entered s stored :
  empty_or_else (Some s) stored = s.
Proof. by destruct s. Qed.

(** C10: [getEnteredSettings] keeps the stored setting for the
    database type, the SQL host and database name, the Mongo URI and
    database name, the cores and the server port when the field is
    empty or not in the document; an empty SQL user or password is
    kept as the empty string, and the stored one is used only when
    that field is not in the document. *)
Theorem getEnteredSettings_falls_back (p : Page) :
  let f := form p in
  let old := _settings p in
  let new := getEnteredSettings p in
  (blank (val "settings-database-type" f) -> dbType new = dbType old)
  /\ (blank (val "settings-database-sql-host" f) ->
      MysqlSettings.host (mysql new) = MysqlSettings.host (mysql old))
  /\ (blank (val "settings-database-sql-name" f) ->
      MysqlSettings.dbName (mysql new) = MysqlSettings.dbName (mysql old))
  /\ (blank (val "settings-database-mongo-uri" f) ->
      MongoSettings.uri (mongo new) = MongoSettings.uri (mongo old))
  /\ (blank (val "settings-database-mongo-name" f) ->
      MongoSettings.dbName (mongo new) = MongoSettings.dbName (mongo old))
  /\ (blank (val "settings-scan-cores" f) -> cores new = cores old)
  /\ (blank (val "settings-server-port" f) ->
      ServerSettings.port (server new) = ServerSettings.port (server old))
  /\ (val "settings-database-sql-user" f = Some EmptyString ->
      MysqlSettings.user (mysql new) = EmptyString)
  /\ (val "settings-database-sql-password" f = Some EmptyString ->
      MysqlSettings.password (mysql new) = EmptyString)
  /\ (val "settings-database-sql-user" f = None ->
      MysqlSettings.user (mysql new) = MysqlSettings.user (mysql old))
  /\ (val "settings-database-sql-password" f = None ->
      MysqlSettings.password (mysql new) = MysqlSettings.password (mysql old)).
Proof.
  cbn zeta. unfold getEnteredSettings; cbn [dbType mysql mongo cores server
    MysqlSettings.host MysqlSettings.user MysqlSettings.password
    MysqlSettings.dbName MongoSettings.uri MongoSettings.dbName
    ServerSettings.port].
  repeat split; try (intros H; by apply or_else_blank).
  all: intros ->; done.
Qed.

Lemma updateSettings_frame p :
  _settings (updateSettings p) = _settings p
  /\ _status (updateSettings p) = _status p
  /\ views (updateSettings p) = views p
  /\ listeners (updateSettings p) = listeners p.
Proof. done. Qed.

Lemma replace_newlines_default logs :
  match nonempty logs with
  | Some text => replace_newlines text
  | None => EmptyString
  end = replace_newlines (default EmptyString logs).
Proof. by destruct logs as [[|] |]. Qed.

Lemma displayed_logs_startScan logs p :
  displayed_logs (startScan logs p)
  = Some (replace_newlines (default EmptyString logs)).
Proof.
  unfold displayed_logs, startScan; cbn [views]. rewrite last_snoc.
  rewrite <- replace_newlines_default. by destruct (nonempty logs).
Qed.

(** C8: the listener of 'init' takes the configuration and the
    status of the message as [_settings] and [_status], and when the
    status is "scanning" it writes a new scan view whose log area
    shows the log buffer of that same message, with its listener of
    'logs' registered. *)
Theorem init_resynchronizes (config : Settings) (status : string)
    (logs : option string) (p : Page) :
  let p' := receive (Init config status logs) p in
  _settings p' = config
  /\ _status p' = Some status
  /\ (status = "scanning" ->
      (exists view, views p' = views p ++ [view])
      /\ displayed_logs p' = Some (replace_newlines (default EmptyString logs))
      /\ OnLogs (length (views p)) ∈ listeners p').
Proof.
  cbn zeta. unfold receive.
  destruct (String.eqb status "idle") eqn:Hidle;
    [| destruct (String.eqb status "scanning") eqn:Hscan].
  - apply String.eqb_eq in Hidle. subst status.
    split; [done | split; [done | intros [=]]].
  - split; [done | split; [done | intros _]].
    split; [| split].
    + unfold startScan; cbn [views]. eauto.
    + apply displayed_logs_startScan.
    + unfold startScan; cbn [listeners views set_status set_settings].
      apply elem_of_app. right. by left.
  - split; [done | split; [done | intros ->; done]].
Qed.


Lemma set_views_id p : set_views (views p) p = p.
Proof. by destruct p. Qed.

Lemma notify_logs html_of ls : forall p,
  foldl (notify (Logs html_of)) p ls
  = set_views (write_logs (replace_newlines html_of) ls (views p)) p.
Proof.
  induction ls as [| l ls IH]; intros p; simpl.
  - by rewrite set_views_id.
  - rewrite IH. by destruct l.
Qed.

Lemma receive_logs args p :
  receive (Logs args) p
  = set_views (write_logs (replace_newlines args) (listeners p) (views p)) p.
Proof. apply notify_logs. Qed.

Lemma write_logs_length html ls : forall vs,
  length (write_logs html ls vs) = length vs.
Proof.
  induction ls as [| l ls IH]; intros vs; simpl; [done |].
  fold (write_logs html ls). rewrite IH. destruct l; [apply length_alter | done..].
Qed.

Lemma set_logs_area_twice html v :
  set_logs_area html (set_logs_area html v) = set_logs_area html v.
Proof. done. Qed.

Lemma listens_cons_other i l (ls : list Listener) :
  l <> OnLogs i ->
  bool_decide (OnLogs i ∈ l :: ls) = bool_decide (OnLogs i ∈ ls).
Proof.
  intros Hne. apply bool_decide_ext. rewrite elem_of_cons.
  split; [intros [Heq | Hin]; [congruence | done] | by right].
Qed.

Lemma write_logs_lookup html ls : forall vs i,
  write_logs html ls vs !! i
  = if bool_decide (OnLogs i ∈ ls) then set_logs_area html <$> vs !! i
    else vs !! i.
Proof.
  induction ls as [| l ls IH]; intros vs i; simpl; [done |].
  fold (write_logs html ls). rewrite IH.
  destruct l as [k | |].
  - destruct (decide (k = i)) as [-> | Hne].
    + rewrite list_lookup_alter_eq.
      rewrite (bool_decide_eq_true_2 (OnLogs i ∈ OnLogs i :: ls)) by (by left).
      case_bool_decide; [| done].
      destruct (vs !! i); simpl; done.
    + rewrite list_lookup_alter_ne by done.
      rewrite listens_cons_other by congruence. done.
  - by rewrite listens_cons_other.
  - by rewrite listens_cons_other.
Qed.

Lemma write_logs_twice html ls vs :
  write_logs html ls (write_logs html ls vs) = write_logs html ls vs.
Proof.
  apply list_eq. intros i. rewrite !write_logs_lookup.
  case_bool_decide; [| done]. by destruct (vs !! i).
Qed.

Lemma notify_frame msg ls : forall p,
  listeners (foldl (notify msg) p ls) = listeners p
  /\ length (views (foldl (notify msg) p ls)) = length (views p).
Proof.
  induction ls as [| l ls IH]; intros p; simpl; [done |].
  destruct (IH (notify msg p l)) as [-> ->].
  destruct l, msg; simpl; try done.
  - by rewrite length_alter.
  - by rewrite length_alter.
  - split; [done |]. rewrite length_alter. by destruct (progressBar p); rewrite ?length_alter.
Qed.

Lemma listened_receive msg p : listened p -> listened (receive msg p).
Proof.
  assert (forall logs q, listened q -> listened (startScan logs q)) as Hstart.
  { intros logs q Hq i. unfold startScan; cbn [views listeners].
    rewrite length_app; simpl. intros Hi. apply elem_of_app.
    destruct (decide (i = length (views q))) as [-> | Hne].
    - right. by left.
    - left. apply Hq. lia. }
  intros Hp. destruct msg; simpl.
  - destruct (String.eqb status "idle"); [exact Hp |].
    destruct (String.eqb status "scanning"); [| exact Hp].
    by apply Hstart.
  - case_bool_decide; exact Hp.
  - by apply Hstart.
  - intros i. destruct (notify_frame (Logs args) (listeners p) p) as [-> ->]. apply Hp.
  - intros i. destruct (notify_frame (Status text percentage) (listeners p) p) as [-> ->].
    apply Hp.
  - intros i. destruct (notify_frame (End code stopped) (listeners p) p) as [-> ->].
    apply Hp.
Qed.

Lemma listened_run history : forall p, listened p -> listened (run history p).
Proof.
  induction history as [| msg history IH]; intros p Hp; simpl; [done |].
  by apply IH, listened_receive.
Qed.

Lemma listened_load f : listened (load f).
Proof. intros i. unfold load; simpl. lia. Qed.

Lemma displayed_logs_receive args p :
  listened p ->
  displayed_logs (receive (Logs args) p)
  = match views p with
    | [] => None
    | _ => Some (replace_newlines args)
    end.
Proof.
  intros Hp. rewrite receive_logs. unfold displayed_logs; cbn [views set_views].
  rewrite last_lookup, write_logs_length, write_logs_lookup.
  destruct (views p) as [| v vs] eqn:Hvs; [by case_bool_decide |].
  rewrite bool_decide_eq_true_2 by (apply Hp; rewrite Hvs; simpl; lia).
  rewrite <- last_lookup.
  destruct (last (v :: vs)) eqn:Hlast; [done |].
  by apply last_None in Hlast.
Qed.

Lemma logs_area_alter (f : ScanView -> ScanView) i (vs : list ScanView) :
  (forall v, logs_area (f v) = logs_area v) ->
  logs_area <$> alter f i vs = logs_area <$> vs.
Proof.
  intros Hf. rewrite (list_fmap_alter logs_area f (fun s => s))
    by (apply Forall_true; intros v; apply Hf).
  by rewrite list_alter_id.
Qed.

Lemma logs_area_endScan stopped error p :
  logs_area <$> views (endScan stopped error p) = logs_area <$> views p.
Proof.
  unfold endScan; cbn [views set_status set_views].
  rewrite logs_area_alter by (intros v; by destruct stopped, error).
  destruct (progressBar p); [| done].
  apply logs_area_alter. intros v; by destruct stopped, error.
Qed.

Lemma notify_keeps_logs msg ls : forall p,
  (forall args, msg <> Logs args) ->
  logs_area <$> views (foldl (notify msg) p ls) = logs_area <$> views p.
Proof.
  induction ls as [| l ls IH]; intros p Hmsg; simpl; [done |].
  rewrite IH by done.
  destruct l, msg; try done.
  - by destruct (Hmsg args).
  - simpl. by apply logs_area_alter.
  - unfold notify. by rewrite logs_area_endScan.
Qed.

Lemma displayed_logs_fmap p : displayed_logs p = last (logs_area <$> views p).
Proof. unfold displayed_logs. by rewrite fmap_last. Qed.

(** C9: a 'logs' message replaces the whole log area by the text of
    the message: receiving it twice leaves the page as receiving it
    once, after it the log area of the scan view shows exactly that
    text, and the other messages of a scan leave the log area as it
    is. *)
Theorem logs_message_replaces_display (args : string) :
  (forall p : Page,
     receive (Logs args) (receive (Logs args) p) = receive (Logs args) p)
  /\ (forall (f : Form) (history : list Message),
        let p := run history (load f) in
        displayed_logs (receive (Logs args) p)
        = match views p with
          | [] => None
          | _ => Some (replace_newlines args)
          end)
  /\ (forall (p : Page) (text : list string) (percentage code : Value)
             (stopped : bool) (data : Settings),
        displayed_logs (receive (Status text percentage) p) = displayed_logs p
        /\ displayed_logs (receive (End code stopped) p) = displayed_logs p
        /\ displayed_logs (receive (SettingsChanged data) p) = displayed_logs p).
Proof.
  split; [| split].
  - intros p. rewrite !receive_logs. cbn [listeners views set_views].
    unfold set_views; cbn. by rewrite write_logs_twice.
  - intros f history. cbn zeta.
    apply displayed_logs_receive, listened_run, listened_load.
  - intros p text percentage code stopped data.
    rewrite !displayed_logs_fmap. unfold receive.
    rewrite !notify_keeps_logs by done.
    split; [done | split; [done |]].
    by case_bool_decide.
Qed.

End ScriptFacts.

(* ===================================================================== *)
(** ** Shape of the text [mySqlDateTime] returns *)
(* ===================================================================== *)

Module DateShape.
Import JsDate Database DateFacts.

Section Years.
Local Open Scope Z_scope.

(** [YearFromTime] is the year ECMA-262 defines: the one whose first
    day is not after the day of the instant, the first day of the next
    year being after it. *)
Lemma YearFromTime_bounds t :
  DayFromYear (YearFromTime t) <= Day t < DayFromYear (YearFromTime t + 1).
Proof.
  unfold YearFromTime. cbv zeta. generalize (Day t). intros d.
  unfold DayFromYear.
  destruct (Z.ltb_spec d (365 * (1970 + d * 400 / 146097 - 1970)
     + (1970 + d * 400 / 146097 - 1969) / 4
     - (1970 + d * 400 / 146097 - 1901) / 100
     + (1970 + d * 400 / 146097 - 1601) / 400)).
  - Z.div_mod_to_equations. lia.
  - destruct (Z.leb_spec (365 * (1970 + d * 400 / 146097 + 1 - 1970)
     + (1970 + d * 400 / 146097 + 1 - 1969) / 4
     - (1970 + d * 400 / 146097 + 1 - 1901) / 100
     + (1970 + d * 400 / 146097 + 1 - 1601) / 400) d).
    + Z.div_mod_to_equations. lia.
    + Z.div_mod_to_equations. lia.
Qed.

End Years.

Lemma digit_is_digit n : negb (no_digit (digit n)) = true.
Proof.
  unfold digit.
  assert (Z.to_nat (n mod 10) < 10)%nat as Hk
    by (pose proof (Z.mod_pos_bound n 10); lia).
  generalize dependent (Z.to_nat (n mod 10)). intros k Hk.
  do 10 (destruct k as [| k]; [reflexivity |]). lia.
Qed.

Lemma shaped_datetime y m d h mi s :
  (0 <= y <= 9999)%Z ->
  shaped datetime_pattern
    (isoYear y +:+ "-" +:+ pad2 m +:+ "-" +:+ pad2 d +:+ " "
     +:+ pad2 h +:+ ":" +:+ pad2 mi +:+ ":" +:+ pad2 s) = true.
Proof.
  intros Hy. unfold isoYear.
  rewrite (proj2 (Z.leb_le 0 y)), (proj2 (Z.leb_le y 9999)) by lia.
  cbv [andb pad pad2 String.append shaped datetime_pattern].
  rewrite !digit_is_digit. reflexivity.
Qed.

Section LocalTime.
Variable LocalTZA : Z -> Z.

(** For every time value a [Date] can hold, [mySqlDateTime] returns
    the calendar date in UTC followed by the time of day in local
    time; with a year from 0 to 9999 that text has the shape
    [YYYY-MM-DD HH:MM:SS], and where the local offset is zero it is
    the local date and time. *)
Theorem mySqlDateTime_is_utc_date_then_local_time (t : Z) :
  (Z.abs t <= 8640000000000000)%Z ->
  mySqlDateTime LocalTZA t
  = inr (isoDate t +:+ " " +:+ timeOfDay (LocalTime LocalTZA t))
  /\ ((0 <= YearFromTime t <= 9999)%Z ->
      shaped datetime_pattern
        (isoDate t +:+ " " +:+ timeOfDay (LocalTime LocalTZA t)) = true)
  /\ (LocalTZA t = 0%Z ->
      mySqlDateTime LocalTZA t = inr (localDateTime LocalTZA t)).
Proof.
  intros Ht. split; [by apply mySqlDateTime_value |]. split.
  - intros Hy. unfold isoDate, timeOfDay. rewrite !append_assoc.
    by apply shaped_datetime.
  - intros Hz. rewrite mySqlDateTime_value by done.
    unfold localDateTime, LocalTime. rewrite Hz, Z.add_0_r. reflexivity.
Qed.
End LocalTime.

Lemma mySqlDateTime_is_utc_date_then_local_time_witness :
  mySqlDateTime Examples.brisbane Examples.june_first
  = inr (isoDate Examples.june_first +:+ " "
         +:+ timeOfDay (LocalTime Examples.brisbane Examples.june_first))
  /\ ((0 <= YearFromTime Examples.june_first <= 9999)%Z ->
      shaped datetime_pattern
        (isoDate Examples.june_first +:+ " "
         +:+ timeOfDay (LocalTime Examples.brisbane Examples.june_first)) = true)
  /\ (Examples.brisbane Examples.june_first = 0%Z ->
      mySqlDateTime Examples.brisbane Examples.june_first
      = inr (localDateTime Examples.brisbane Examples.june_first)).
Proof.
  apply (mySqlDateTime_is_utc_date_then_local_time Examples.brisbane
           Examples.june_first).
  vm_compute. discriminate.
Defined.

End DateShape.


(* ===================================================================== *)
(** ** How the methods of [Mysql] settle *)
(* ===================================================================== *)

Module DatabaseSettles.
Import JsDate Database Wire DateFacts DatabaseFacts.

Create HintDb settle.

Section Generic.
Context {Server : Type}.
Variable driver : Driver Server.
Variable LocalTZA : Z -> Z.

Lemma same_self_refl (w : World Server) : same_self w w.
Proof. by repeat split. Qed.

Lemma same_self_trans (w1 w2 w3 : World Server) :
  same_self w1 w2 -> same_self w2 w3 -> same_self w1 w3.
Proof.
  intros (H1 & H2 & H3) (H4 & H5 & H6). repeat split; congruence.
Qed.

Lemma settles_ret {A} (a : A) : settles (ret a : Async (World Server) A).
Proof. intros w. split; [done | apply same_self_refl]. Qed.

Lemma settles_bind {A B} (m : Async (World Server) A)
    (k : A -> Async (World Server) B) :
  settles m -> (forall a, settles (k a)) -> settles (bind m k).
Proof.
  intros Hm Hk w. unfold bind. destruct (Hm w) as [Hp Hs].
  destruct (m w) as [[| a | e] w1]; simpl in *; [done | | done].
  destruct (Hk a w1) as [Hp' Hs']. split; [done |].
  by eapply same_self_trans.
Qed.

Lemma settles_makeQuery stmt ps : settles (makeQuery driver stmt ps).
Proof.
  intros w. unfold makeQuery.
  destruct (self_db w); [| split; [done | apply same_self_refl]].
  destruct (db_query driver c stmt ps (server w)) as [[e | rows] srv];
    split; try done; by repeat split.
Qed.

Lemma settles_lift {A} (r : Error + A) :
  settles (lift r : Async (World Server) A).
Proof. intros w. destruct r; split; try done; apply same_self_refl. Qed.

Lemma settles_for_await {A} (xs : list A)
    (body : A -> Async (World Server) unit) :
  (forall x, settles (body x)) -> settles (for_await xs body).
Proof.
  intros Hb. induction xs as [| x xs IH]; simpl.
  - apply settles_ret.
  - apply settles_bind; [apply Hb | intros _; apply IH].
Qed.

Lemma settles_at {A} (m : World Server -> Async (World Server) A) :
  (forall w0, settles (m w0)) -> settles (fun w => m w w).
Proof. intros Hm w. apply (Hm w). Qed.

#[local] Hint Resolve settles_ret settles_makeQuery settles_lift : settle.

(** [makeQuery] and the methods built on it ([setup], [deleteTable],
      [addData]) always settle, fulfilled or rejected: they never
      stay pending, raise no uncaught exception and leave the fields
      of the object alone. *)
Theorem queries_always_settle :
  (forall stmt ps, settles (makeQuery driver stmt ps))
  /\ settles (setup driver)
  /\ (forall tableName, settles (deleteTable driver tableName))
  /\ (forall data, settles (addData driver LocalTZA data)).
Proof.
  split; [apply settles_makeQuery |]. split; [| split].
  - unfold setup, createTable.
    repeat (apply settles_bind; [| intros ?]); auto with settle.
    unfold prepareDatabase. apply (settles_at (fun w0 => _)). intros w0.
    repeat (apply settles_bind; [| intros ?]); auto with settle.
    destruct (length _ =? 1)%nat; auto with settle.
    apply settles_bind; [| intros ?]; auto with settle.
  - intros tableName. unfold deleteTable.
    apply (settles_at (fun w0 => _)). intros w0.
    apply settles_bind; [| intros res]; auto with settle.
    destruct (0 <? length res)%nat; auto with settle.
    apply settles_bind; [| intros ?]; auto with settle.
  - intros data. unfold addData.
    apply settles_bind; [| intros _; apply settles_for_await; intros review].
    + unfold insertFlow. apply (settles_at (fun w0 => _)). intros w0.
      repeat (apply settles_bind; [| intros ?]); auto with settle.
    + unfold insertReview. apply (settles_at (fun w0 => _)). intros w0.
      repeat (apply settles_bind; [| intros ?]); auto with settle.
Qed.

(** [connect] never rejects.  It is fulfilled with the connection,
      which it stores with the database name, exactly when the
      handshake succeeds; otherwise it stays pending, the object is
      unchanged and the error is one more uncaught exception.  It
      sends no query. *)
Theorem connect_settles_only_on_success
    (host user password dbName : string) (w : World Server) :
  let db := {| conn_host := host; conn_user := user;
               conn_password := password |} in
  let r := connect driver host user password dbName w in
  (forall e, r.1 <> Rejected e)
  /\ (r.1 = Fulfilled db <-> db_connect driver db (server w) = None)
  /\ (r.1 = Pending <-> exists e, db_connect driver db (server w) = Some e)
  /\ (r.1 = Fulfilled db ->
      self_db r.2 = Some db /\ self_dbName r.2 = Some dbName
      /\ uncaught r.2 = uncaught w)
  /\ (forall e, db_connect driver db (server w) = Some e ->
      self_db r.2 = self_db w /\ self_dbName r.2 = self_dbName w
      /\ uncaught r.2 = uncaught w ++ [e])
  /\ server r.2 = server w /\ trace r.2 = trace w.
Proof.
  cbv zeta. unfold connect, connect_callback.
  destruct (db_connect driver _ (server w)) as [e |]; simpl.
  - split_and!; try done.
    + split; [eauto | done].
    + by intros e' [= ->].
  - split_and!; try done. split; [done | by intros [e ?]].
Qed.

(** A review whose [created] is outside the range of [Date] stops
      [addData]: the flow and the reviews before it are inserted, the
      call is rejected with the [RangeError] of [toISOString], and
      neither that review nor a later one is sent. *)
Theorem addData_stops_before_unwritable_review
    (data : Flow.t) (w : World Server) (db : Connection)
    (before after : list Review.t) (review : Review.t)
    (fq : Query) (qs : list Query) (srv : Server) :
  self_db w = Some db ->
  Flow.reviews data = before ++ review :: after ->
  flow_query LocalTZA (dbNameText w) data = inr fq ->
  Forall2 (fun r' q' => review_query LocalTZA (dbNameText w) data r' = inr q')
          before qs ->
  (8640000000000000 < Z.abs (Review.created review))%Z ->
  run_ok driver db (fq :: qs) (server w) = Some srv ->
  addData driver LocalTZA data w
  = (Rejected (RangeError "Invalid time value"),
     advance srv (flat_map (fun q' => round q' None) (fq :: qs)) w).
Proof.
  intros Hdb Hrs Hfq Hqs Hdate Hrun.
  rewrite addData_steps. unfold wanted.
  rewrite Hrs, fmap_app, fmap_cons, (review_queries_fmap _ _ _ _ _ Hqs), Hfq.
  change (inr fq :: (inr <$> qs) ++ ?rest) with ((inr <$> fq :: qs) ++ rest).
  rewrite (for_await_run_ok driver db (fq :: qs) _ srv w Hdb Hrun).
  unfold review_query. rewrite (mySqlDateTime_invalid _ _ Hdate).
  reflexivity.
Qed.
End Generic.

End DatabaseSettles.


(* ===================================================================== *)
(** ** Rows written by [addData] in front of the MySQL server *)
(* ===================================================================== *)

Module MysqlRows.
Import Database Wire MysqlServer DatabaseFacts MysqlFacts.

Section Generic.
Context {Server : Type}.
Variable driver : Driver Server.
Variable LocalTZA : Z -> Z.

Lemma fulfilled_run_ok db qs : forall w : World Server,
  self_db w = Some db ->
  (for_await (inr <$> qs) (insert_step driver) w).1 = Fulfilled tt ->
  run_ok driver db qs (server w)
  = Some (server (for_await (inr <$> qs) (insert_step driver) w).2).
Proof.
  induction qs as [| q qs IH]; intros w Hdb Hf; [done |].
  rewrite fmap_cons in *. cbn [for_await run_ok] in *.
  unfold bind in *.
  destruct (db_query driver db (sql q) (params q) (server w))
    as [[e | rows] srv] eqn:Hq.
  - rewrite (insert_step_failed driver db q e srv w Hdb Hq) in Hf. done.
  - rewrite (insert_step_ok driver db q rows srv w Hdb Hq) in *.
    by apply (IH (advance srv (round q None) w)).
Qed.

Lemma flow_query_inserts n data q :
  flow_query LocalTZA n data = inr q -> inserts_into n "flows" q.
Proof.
  unfold flow_query.
  destruct (mySqlDateTime LocalTZA (Flow.created data)); [done |].
  destruct (mySqlDateTime LocalTZA (Flow.modified data)); [done |].
  intros [= <-]. by eexists.
Qed.

Lemma review_query_inserts n data r q :
  review_query LocalTZA n data r = inr q -> inserts_into n "reviews" q.
Proof.
  unfold review_query.
  destruct (mySqlDateTime LocalTZA (Review.created r)); [done |].
  destruct (mySqlDateTime LocalTZA (Review.modified r)); [done |].
  intros [= <-]. by eexists.
Qed.

Lemma review_queries_Forall2 n data rs qs :
  review_query LocalTZA n data <$> rs = inr <$> qs ->
  Forall2 (fun r q => review_query LocalTZA n data r = inr q) rs qs.
Proof.
  revert qs. induction rs as [| r rs IH]; intros [| q qs] Heq;
    try discriminate Heq.
  - constructor.
  - rewrite !fmap_cons in Heq. injection Heq as Hq Hrest. constructor; auto.
Qed.

Lemma addData_fulfilled (data : Flow.t) (w : World Server) :
  (addData driver LocalTZA data w).1 = Fulfilled tt ->
  exists db fq qs,
    self_db w = Some db
    /\ flow_query LocalTZA (dbNameText w) data = inr fq
    /\ Forall2 (fun r q => review_query LocalTZA (dbNameText w) data r = inr q)
               (Flow.reviews data) qs
    /\ run_ok driver db (fq :: qs) (server w)
       = Some (server (addData driver LocalTZA data w).2).
Proof.
  intros Hf. rewrite addData_steps in *.
  destruct (for_await_steps driver (wanted LocalTZA (dbNameText w) data) w)
    as (evs & _ & _ & Hst).
  rewrite Hf in Hst. apply steps_trace_fulfilled in Hst.
  destruct (self_db w) as [db |] eqn:Hdb.
  - unfold wanted in *. destruct (sent evs) as [| fq qs]; [done |].
    rewrite fmap_cons in Hst. injection Hst as Hfq Hqs.
    exists db, fq, qs. split; [done |]. split; [done |].
    split; [by apply review_queries_Forall2 |].
    rewrite <- Hfq, <- Hqs in *.
    exact (fulfilled_run_ok db (fq :: qs) w Hdb Hf).
  - exfalso. unfold wanted in Hf. cbn [for_await] in Hf. unfold bind in Hf.
    destruct (insert_step_outcome driver
                (flow_query LocalTZA (dbNameText w) data) w)
      as [e Hq | q0 Hq Hdb' | q0 db res srv Hq Hdb' Hres]; try done.
    congruence.
Qed.
End Generic.

Lemma execute_insert db name table columns ps rows srv srv' :
  execute db (InsertInto name table columns) ps srv = (inr rows, srv') ->
  table_rows name table srv' = table_rows name table srv ++ [ps]
  /\ forall table', table' <> table ->
       table_rows name table' srv' = table_rows name table' srv.
Proof.
  unfold execute, failed, done, table_rows.
  destruct (databases srv !! name) as [tables |] eqn:Hdb; [| done].
  destruct (tables !! table) as [old |] eqn:Ht; [| done].
  destruct (negb _); [done |]. destruct (duplicate_id _ _); [done |].
  intros [= _ <-]. cbn [databases with_databases].
  rewrite !lookup_insert_eq. split.
  - reflexivity.
  - intros table' Hne. by rewrite lookup_insert_ne.
Qed.

Lemma run_ok_rows db name table qs : forall srv srv',
  Forall (inserts_into name table) qs ->
  run_ok driver db qs srv = Some srv' ->
  table_rows name table srv' = table_rows name table srv ++ (params <$> qs)
  /\ forall table', table' <> table ->
       table_rows name table' srv' = table_rows name table' srv.
Proof.
  induction qs as [| q qs IH]; intros srv srv' Hall Hrun.
  - injection Hrun as <-. by rewrite app_nil_r.
  - apply Forall_cons in Hall as [[columns Hq] Hall].
    cbn [run_ok driver db_query] in Hrun. rewrite Hq in Hrun.
    destruct (execute db (InsertInto name table columns) (params q) srv)
      as [[e | rows] srv1] eqn:Hex; [done |].
    apply execute_insert in Hex as [Hsame Hother].
    destruct (IH srv1 srv' Hall Hrun) as [IH1 IH2]. split.
    + rewrite IH1, Hsame, fmap_cons, <- app_assoc. done.
    + intros table' Hne. rewrite IH2, Hother; done.
Qed.


Lemma review_queries_insert tz n data rs qs :
  Forall2 (fun r q => review_query tz n data r = inr q) rs qs ->
  Forall (inserts_into n "reviews") qs.
Proof.
  induction 1; constructor; [by eapply review_query_inserts | done].
Qed.

Lemma run_ok_cons db q qs srv srv' :
  run_ok driver db (q :: qs) srv = Some srv' ->
  exists srv1, run_ok driver db [q] srv = Some srv1
               /\ run_ok driver db qs srv1 = Some srv'.
Proof.
  cbn [run_ok].
  destruct (db_query driver db (sql q) (params q) srv) as [[e | rows] srv1];
    [done |]. eauto.
Qed.

Lemma flow_and_review_rows tz name data db fq rs qs srv srv' :
  flow_query tz name data = inr fq ->
  Forall2 (fun r q => review_query tz name data r = inr q) rs qs ->
  run_ok driver db (fq :: qs) srv = Some srv' ->
  table_rows name "flows" srv' = table_rows name "flows" srv ++ [params fq]
  /\ table_rows name "reviews" srv'
     = table_rows name "reviews" srv ++ (params <$> qs).
Proof.
  intros Hfq Hqs Hrun.
  apply run_ok_cons in Hrun as (srv1 & Hflow & Hrev).
  apply (run_ok_rows db name "flows") in Hflow as [Hf1 Hf2];
    [| constructor; [by eapply flow_query_inserts | constructor]].
  apply (run_ok_rows db name "reviews") in Hrev as [Hr1 Hr2];
    [| by eapply review_queries_insert].
  split.
  - rewrite Hr2, Hf1 by done. done.
  - rewrite Hr1, Hf2 by done. done.
Qed.

(** In front of the MySQL server, a fulfilled [addData] has added
    one row to "flows" and one row per review to "reviews", in the
    order of the input array, each row being the parameters of its
    insert statement; the older rows are still there. *)
Theorem addData_rows_read_back
    (tz : Z -> Z) (data : Flow.t) (w : World Server) :
  (addData driver tz data w).1 = Fulfilled tt ->
  exists fq qs,
    flow_query tz (dbNameText w) data = inr fq
    /\ Forall2 (fun r q => review_query tz (dbNameText w) data r = inr q)
               (Flow.reviews data) qs
    /\ table_rows (dbNameText w) "flows" (server (addData driver tz data w).2)
       = table_rows (dbNameText w) "flows" (server w) ++ [params fq]
    /\ table_rows (dbNameText w) "reviews"
         (server (addData driver tz data w).2)
       = table_rows (dbNameText w) "reviews" (server w) ++ (params <$> qs).
Proof.
  intros Hf.
  destruct (addData_fulfilled driver tz data w Hf)
    as (db & fq & qs & Hdb & Hfq & Hqs & Hrun).
  exists fq, qs. split; [done |]. split; [done |].
  by eapply flow_and_review_rows.
Qed.

(** In front of the MySQL server, when the insert of a review fails
    after the flow and the reviews before it went in, [addData] is
    rejected with that error and the tables hold the row of the flow
    and the rows of those earlier reviews, after the older rows. *)
Theorem addData_leaves_partial_rows
    (tz : Z -> Z) (data : Flow.t) (w : World Server) (db : Connection)
    (before after : list Review.t) (review : Review.t)
    (fq q : Query) (qs : list Query) (e : Error) (srv srv' : Server) :
  self_db w = Some db ->
  Flow.reviews data = before ++ review :: after ->
  flow_query tz (dbNameText w) data = inr fq ->
  Forall2 (fun r' q' => review_query tz (dbNameText w) data r' = inr q')
          before qs ->
  review_query tz (dbNameText w) data review = inr q ->
  run_ok driver db (fq :: qs) (server w) = Some srv ->
  execute db (sql q) (params q) srv = (inl e, srv') ->
  (addData driver tz data w).1 = Rejected e
  /\ table_rows (dbNameText w) "flows" (server (addData driver tz data w).2)
     = table_rows (dbNameText w) "flows" (server w) ++ [params fq]
  /\ table_rows (dbNameText w) "reviews" (server (addData driver tz data w).2)
     = table_rows (dbNameText w) "reviews" (server w) ++ (params <$> qs).
Proof.
  intros Hdb Hrs Hfq Hqs Hq Hrun Hfail.
  rewrite addData_steps. unfold wanted.
  rewrite Hrs, fmap_app, fmap_cons, (review_queries_fmap _ _ _ _ _ Hqs), Hfq, Hq.
  change (inr fq :: (inr <$> qs) ++ ?rest) with ((inr <$> fq :: qs) ++ rest).
  rewrite (for_await_stops_at_failure driver db (fq :: qs) q _ e srv srv' w
             Hdb Hrun Hfail).
  cbn [fst snd server advance].
  apply execute_failed in Hfail as ->.
  split; [done |]. by eapply flow_and_review_rows.
Qed.


End MysqlRows.


(* ===================================================================== *)
(** ** [deleteTable] in front of the MySQL server *)
(* ===================================================================== *)

Module MysqlTables.
Import Database Wire MysqlServer DateFacts DatabaseFacts MysqlFacts.

Lemma like_percent_any s : like "%" s = true.
Proof.
  induction s as [| c s IH]; [reflexivity |].
  change (like "" (String c s) || like "%" s = true).
  rewrite IH. apply orb_true_r.
Qed.

Lemma like_percent_skip p pre : forall s,
  like p s = true -> like (String "%" p) (pre +:+ s) = true.
Proof.
  induction pre as [| c pre IH]; intros s Hs.
  - change ("" +:+ s) with s. destruct s as [| c s].
    + change (like p "" || false = true). by rewrite Hs.
    + change (like p (String c s) || like (String "%" p) s = true).
      by rewrite Hs.
  - change (like p (String c (pre +:+ s)) || like (String "%" p) (pre +:+ s)
            = true).
    rewrite (IH s Hs). apply orb_true_r.
Qed.

Lemma like_plain_prefix t post :
  plain t = true -> like (t +:+ "%") (t +:+ post) = true.
Proof.
  induction t as [| c t IH]; intros Hp.
  - apply like_percent_any.
  - cbn [plain] in Hp.
    repeat (apply andb_prop in Hp as [Hp ?]).
    change (String c t +:+ "%") with (String c (t +:+ "%")).
    change (String c t +:+ post) with (String c (t +:+ post)).
    cbn [like].
    repeat match goal with
           | H : negb (Ascii.eqb ?a ?b) = true |- _ =>
               apply negb_true_iff in H; try rewrite H
           end.
    rewrite Ascii.eqb_refl. by apply IH.
Qed.

Lemma like_contains t pre post :
  plain t = true ->
  like ("%" +:+ t +:+ "%") (pre +:+ t +:+ post) = true.
Proof.
  intros Hp. apply (like_percent_skip (t +:+ "%") pre (t +:+ post)).
  by apply like_plain_prefix.
Qed.

Lemma like_itself t :
  plain t = true -> like ("%" +:+ t +:+ "%") t = true.
Proof.
  intros Hp. pose proof (like_contains t "" "" Hp) as H.
  by rewrite append_nil_r in H.
Qed.

Lemma names_like_found {A} pattern (m : gmap string A) name a :
  m !! name = Some a -> like pattern name = true ->
  (0 <? length (names_like pattern m))%nat = true.
Proof.
  intros Hm Hl. apply Nat.ltb_lt. unfold names_like. rewrite length_fmap.
  assert (name ∈ filter (fun n => like pattern n = true) (elements (dom m)))
    as Hin.
  { apply list_elem_of_filter. split; [done |].
    apply elem_of_elements, elem_of_dom. eauto. }
  destruct (filter _ _); [by apply elem_of_nil in Hin | simpl; lia].
Qed.

Ltac reduce_step :=
  cbn [db_query driver execute fst snd server advance with_databases
       databases current failed done result_error].

Ltac query_step Hdb :=
  rewrite (makeQuery_connected driver _) by exact Hdb; reduce_step.

(** [deleteTable] on a table that exists in the selected database of
    the object: the call is fulfilled, the table is gone and the
    other tables keep their rows. *)
Theorem deleteTable_drops_the_table
    (w : World Server) (db : Connection) (name tableName : string)
    (tables : gmap string (list Row)) (rows : list Row) :
  self_db w = Some db -> self_dbName w = Some name ->
  current (server w) = Some name ->
  databases (server w) !! name = Some tables ->
  tables !! tableName = Some rows ->
  plain tableName = true ->
  (deleteTable driver tableName w).1 = Fulfilled tt
  /\ databases (server (deleteTable driver tableName w).2)
     = <[name := delete tableName tables]> (databases (server w))
  /\ table_rows name tableName (server (deleteTable driver tableName w).2) = []
  /\ forall other, other <> tableName ->
       table_rows name other (server (deleteTable driver tableName w).2)
       = table_rows name other (server w).
Proof.
  intros Hdb Hname Hcur Hdbs Ht Hp.
  unfold deleteTable, dbNameText. rewrite Hname. unfold bind, ret.
  query_step Hdb. rewrite Hcur, Hdbs. reduce_step.
  rewrite (names_like_found _ tables tableName rows Ht
             (like_itself tableName Hp)).
  query_step Hdb. rewrite Hdbs, Ht. reduce_step.
  split; [done |]. split; [done |].
  unfold table_rows. cbn [databases with_databases].
  rewrite lookup_insert_eq, Hdbs. split.
  - by rewrite lookup_delete_eq.
  - intros other Hne. by rewrite lookup_delete_ne.
Qed.

(** [deleteTable] tests [SHOW TABLES LIKE '%name%']: when the table
    is not there but another one whose name contains its name is,
    [DROP TABLE] is sent all the same, fails, and the call is
    rejected with the server unchanged. *)
Theorem deleteTable_rejected_beside_longer_name
    (w : World Server) (db : Connection) (name tableName pre post : string)
    (tables : gmap string (list Row)) (rows : list Row) :
  self_db w = Some db -> self_dbName w = Some name ->
  current (server w) = Some name ->
  databases (server w) !! name = Some tables ->
  tables !! tableName = None ->
  tables !! (pre +:+ tableName +:+ post) = Some rows ->
  plain tableName = true ->
  (deleteTable driver tableName w).1
  = Rejected (DriverError "ER_BAD_TABLE_ERROR")
  /\ server (deleteTable driver tableName w).2 = server w.
Proof.
  intros Hdb Hname Hcur Hdbs Ht Hlong Hp.
  unfold deleteTable, dbNameText. rewrite Hname. unfold bind, ret.
  query_step Hdb. rewrite Hcur, Hdbs. reduce_step.
  rewrite (names_like_found _ tables _ rows Hlong
             (like_contains tableName pre post Hp)).
  query_step Hdb. rewrite Hdbs, Ht. reduce_step. done.
Qed.

End MysqlTables.


(* ===================================================================== *)
(** ** The example engine *)
(* ===================================================================== *)

Module ScriptEngine.
Import Script Examples.

Lemma length_append (a b : string) :
  String.length (a +:+ b) = (String.length a + String.length b)%nat.
Proof.
  induction a as [| c a IH]; [done |].
  change (String c a +:+ b) with (String c (a +:+ b)).
  cbn [String.length]. by rewrite IH.
Qed.

Lemma strip_prefix_append word a rest b :
  strip_prefix word a = Some rest ->
  strip_prefix word (a +:+ b) = Some (rest +:+ b).
Proof.
  revert a. induction word as [| c word IH]; intros a.
  - destruct a; cbn; by intros [= ->].
  - destruct a as [| d a]; [done |].
    change (String d a +:+ b) with (String d (a +:+ b)). cbn [strip_prefix].
    destruct (Ascii.eqb c d); [apply IH | done].
Qed.

Lemma strip_prefix_mismatch word a b :
  strip_prefix word a = None -> (String.length word <= String.length a)%nat ->
  strip_prefix word (a +:+ b) = None.
Proof.
  revert a. induction word as [| c word IH]; intros a.
  - by destruct a.
  - destruct a as [| d a]; cbn [String.length]; [lia |].
    change (String d a +:+ b) with (String d (a +:+ b)). cbn [strip_prefix].
    destruct (Ascii.eqb c d); [| done]. intros H Hl. apply IH; [done | lia].
Qed.

Lemma strip_prefix_length word a rest :
  strip_prefix word a = Some rest -> (String.length word <= String.length a)%nat.
Proof.
  revert a. induction word as [| c word IH]; intros a; cbn [String.length]; [lia |].
  destruct a as [| d a]; [done |]. cbn [strip_prefix String.length].
  destruct (Ascii.eqb c d); [| done]. intros H%IH. lia.
Qed.

Lemma after_length word a rest :
  after word a = Some rest -> (String.length word <= String.length a)%nat.
Proof.
  induction a as [| d a IH].
  - cbn [after]. destruct (strip_prefix word "") eqn:E; [| done].
    intros _. by apply strip_prefix_length in E.
  - cbn [after]. destruct (strip_prefix word (String d a)) eqn:E.
    + intros _. by apply strip_prefix_length in E.
    + intros H%IH. cbn [String.length]. lia.
Qed.

Lemma after_append word a rest b :
  after word a = Some rest -> after word (a +:+ b) = Some (rest +:+ b).
Proof.
  induction a as [| d a IH].
  - cbn [after]. destruct (strip_prefix word "") eqn:E; [| done].
    intros [= <-]. destruct word; [| done]. injection E as <-.
    cbn. by destruct b.
  - cbn [after]. destruct (strip_prefix word (String d a)) eqn:E.
    + intros [= <-]. change (String d a +:+ b) with (String d (a +:+ b)).
      cbn [after]. change (String d (a +:+ b)) with (String d a +:+ b).
      by rewrite (strip_prefix_append _ _ _ _ E).
    + intros H. change (String d a +:+ b) with (String d (a +:+ b)).
      cbn [after]. change (String d (a +:+ b)) with (String d a +:+ b).
      rewrite strip_prefix_mismatch; [by apply IH | done |].
      apply after_length in H. cbn [String.length]. lia.
Qed.

Lemma until_plain v rest :
  occurs "034" v = false ->
  until "034" (v +:+ String "034" rest) = (v, rest).
Proof.
  induction v as [| c v IH]; cbn [occurs]; intros H.
  - reflexivity.
  - apply orb_false_elim in H as [Hc Hv].
    change (String c v +:+ String "034" rest) with (String c (v +:+ String "034" rest)).
    cbn [until]. rewrite Hc. cbv zeta. by rewrite (IH Hv).
Qed.

Lemma scan_round fuel opening id value rest :
  after (" id=" +:+ quote) opening
  = Some (id +:+ String "034" (" value=" +:+ quote)) ->
  occurs "034" id = false ->
  occurs "034" value = false ->
  scan_inputs (S fuel) (opening +:+ value +:+ String "034" rest)
  = (id, value) :: scan_inputs fuel rest.
Proof.
  intros Hopen Hid Hvalue. cbn [scan_inputs].
  rewrite (after_append _ _ _ _ Hopen). cbv zeta.
  rewrite DateFacts.append_assoc.
  change (String "034" (" value=" +:+ quote) +:+ ?x)
    with (String "034" ((" value=" +:+ quote) +:+ x)).
  rewrite (until_plain id _ Hid). cbn [fst snd].
  rewrite (after_append (" value=" +:+ quote) (" value=" +:+ quote) "" _ eq_refl).
  change ("" +:+ ?x) with x.
  by rewrite (until_plain value _ Hvalue).
Qed.

Lemma specific_label_parts label id value required rest :
  specific_label label id value required +:+ rest
  = opening label id +:+ value +:+ String "034" (closing required +:+ rest).
Proof.
  unfold specific_label, opening, closing, quoted.
  rewrite !DateFacts.append_assoc. reflexivity.
Qed.

Lemma scan_label fuel before label id value required rest :
  after (" id=" +:+ quote) (before +:+ opening label id)
  = Some (id +:+ String "034" (" value=" +:+ quote)) ->
  occurs "034" id = false ->
  occurs "034" value = false ->
  scan_inputs (S fuel)
    (before +:+ specific_label label id value required +:+ rest)
  = (id, value) :: scan_inputs fuel (closing required +:+ rest).
Proof.
  intros Hopen Hid Hvalue.
  rewrite specific_label_parts, <- DateFacts.append_assoc.
  by apply scan_round.
Qed.

Lemma length_specific_label label id value required :
  (1 <= String.length (specific_label label id value required))%nat.
Proof.
  unfold specific_label. rewrite length_append.
  change (String.length newline) with 1%nat. lia.
Qed.

(** The example engine reads every setting without a double quote
    back from the markup as it is. *)
Lemma scanner_reads_verbatim s type :
  quote_free s -> reads_verbatim scanner s type.
Proof.
  intros (Hhost & Huser & Hpassword & Hname & Huri & Hmongo).
  unfold reads_verbatim, generateDbSettings, stored_inputs, scanner.
  cbn [parse_inputs].
  destruct (String.eqb type "sql"); [| destruct (String.eqb type "mongo")];
    [| | reflexivity].
  - assert (4 <= String.length (sql_markup s))%nat as Hfuel.
    { unfold sql_markup. rewrite !length_append.
      repeat match goal with
      | |- context [String.length (specific_label ?a ?b ?c ?d)] =>
          let H := fresh in pose proof (length_specific_label a b c d) as H;
          generalize dependent (String.length (specific_label a b c d)); intros
      end. lia. }
    destruct (String.length (sql_markup s)) as [| [| [| [| fuel]]]]; try lia.
    unfold sql_markup.
    change (specific_label "Host" ?i ?v ?r +:+ ?rest)
      with ("" +:+ specific_label "Host" i v r +:+ rest).
    rewrite scan_label by (reflexivity || done).
    rewrite scan_label by (reflexivity || done).
    rewrite scan_label by (reflexivity || done).
    rewrite scan_label by (reflexivity || done).
    by destruct fuel.
  - assert (2 <= String.length (mongo_markup s))%nat as Hfuel.
    { unfold mongo_markup. rewrite !length_append.
      repeat match goal with
      | |- context [String.length (specific_label ?a ?b ?c ?d)] =>
          let H := fresh in pose proof (length_specific_label a b c d) as H;
          generalize dependent (String.length (specific_label a b c d)); intros
      end. lia. }
    destruct (String.length (mongo_markup s)) as [| [| fuel]]; try lia.
    unfold mongo_markup.
    change (specific_label "Uri" ?i ?v ?r +:+ ?rest)
      with ("" +:+ specific_label "Uri" i v r +:+ rest).
    rewrite scan_label by (reflexivity || done).
    rewrite scan_label by (reflexivity || done).
    by destruct fuel.
Qed.

End ScriptEngine.


(* ===================================================================== *)
(** ** The settings form *)
(* ===================================================================== *)

Module ScriptForm.
Import Script ScriptFacts.

Lemma val_select f :
  val "settings-database-type" f = database_type f ≫= selected.
Proof. reflexivity. Qed.

Lemma val_of_text id f :
  id <> "settings-database-type" -> val id f = texts f !! id.
Proof.
  intros Hid. unfold val. by rewrite (proj2 (String.eqb_neq _ _) Hid).
Qed.

Lemma set_val_text id v f :
  id <> "settings-database-type" ->
  set_val id v f
  = {| database_type := database_type f;
       texts := match texts f !! id with
                | Some _ => <[id := v]> (texts f)
                | None => texts f
                end;
       checks := checks f; engine := engine f |}.
Proof.
  intros Hid. unfold set_val. by rewrite (proj2 (String.eqb_neq _ _) Hid).
Qed.

Lemma val_set_val_eq id v f :
  id <> "settings-database-type" ->
  val id (set_val id v f) = (fun _ => v) <$> val id f.
Proof.
  intros Hid. rewrite set_val_text, !val_of_text by done. cbn [texts].
  destruct (texts f !! id) eqn:H; [by rewrite lookup_insert_eq | by rewrite H].
Qed.

Lemma val_set_val_ne id id' v f :
  id <> id' -> id' <> "settings-database-type" ->
  val id (set_val id' v f) = val id f.
Proof.
  intros Hne Hid'. rewrite set_val_text by done. unfold val.
  destruct (String.eqb id "settings-database-type"); [done |]. cbn [texts].
  destruct (texts f !! id'); [by rewrite lookup_insert_ne | done].
Qed.

Lemma val_set_checked id id' b f : val id (set_checked id' b f) = val id f.
Proof. done. Qed.

Lemma prop_set_checked id id' b f :
  prop_checked id (set_checked id' b f)
  = if decide (id = id') then (fun _ => b) <$> prop_checked id f
    else prop_checked id f.
Proof.
  unfold prop_checked, set_checked; cbn [checks].
  destruct (decide (id = id')) as [-> | Hne].
  - destruct (checks f !! id') eqn:H; [by rewrite lookup_insert_eq | by rewrite H].
  - destruct (checks f !! id'); [by rewrite lookup_insert_ne | done].
Qed.

Lemma prop_set_checked_eq id b f :
  prop_checked id (set_checked id b f) = (fun _ => b) <$> prop_checked id f.
Proof. rewrite prop_set_checked. by rewrite decide_True. Qed.

Lemma prop_set_checked_ne id id' b f :
  id <> id' -> prop_checked id (set_checked id' b f) = prop_checked id f.
Proof. intros Hne. rewrite prop_set_checked. by rewrite decide_False. Qed.

Lemma prop_set_val id id' v f : prop_checked id (set_val id' v f) = prop_checked id f.
Proof.
  unfold prop_checked, set_val.
  by destruct (String.eqb id' "settings-database-type").
Qed.

Lemma or_else_same s : or_else (fun x => x) (Some s) s = s.
Proof. by destruct s. Qed.

Lemma or_else_text v (shown : option string) :
  to_text (or_else VStr ((fun _ => val_text v) <$> shown) v) = to_text v.
Proof.
  destruct shown; [| done].
  destruct v as [| | [] | n | t]; try done.
  - change (to_text (or_else VStr (Some (string_of_Z n)) (VNum n))
            = string_of_Z n).
    destruct (string_of_Z n) eqn:E; [exact E | reflexivity].
  - by destruct t.
Qed.

Lemma changeDbType_form type p :
  form (changeDbType type p)
  = {| database_type := choose (chosen_type type p) <$> database_type (form p);
       texts :=
         match database_type (form p) with
         | Some _ =>
             foldr (fun kv m => <[kv.1 := kv.2]> m)
               (foldr delete (texts (form p)) specific_ids)
               (generateDbSettings (engine (form p)) (_settings p)
                  (chosen_type type p))
         | None => foldr delete (texts (form p)) specific_ids
         end;
       checks := checks (form p);
       engine := engine (form p) |}.
Proof.
  unfold changeDbType, chosen_type. cbv zeta.
  change (set_val "settings-database-type" ?v ?f)
    with {| database_type := choose v <$> database_type f;
            texts := texts f; checks := checks f; engine := engine f |}.
  cbn [form set_form database_type texts checks engine].
  by destruct (database_type (form p)).
Qed.

Lemma stored_inputs_cases s t :
  (t = "sql"
   /\ stored_inputs s t
      = [("settings-database-sql-host", MysqlSettings.host (mysql s));
         ("settings-database-sql-user", MysqlSettings.user (mysql s));
         ("settings-database-sql-password", MysqlSettings.password (mysql s));
         ("settings-database-sql-name", MysqlSettings.dbName (mysql s))])
  \/ (t = "mongo"
      /\ stored_inputs s t
         = [("settings-database-mongo-uri", MongoSettings.uri (mongo s));
            ("settings-database-mongo-name", MongoSettings.dbName (mongo s))])
  \/ (t <> "sql" /\ t <> "mongo" /\ stored_inputs s t = []).
Proof.
  unfold stored_inputs.
  destruct (String.eqb t "sql") eqn:Hsql.
  - apply String.eqb_eq in Hsql. by left.
  - apply String.eqb_neq in Hsql.
    destruct (String.eqb t "mongo") eqn:Hmongo.
    + apply String.eqb_eq in Hmongo. right. by left.
    + apply String.eqb_neq in Hmongo. right. by right.
Qed.

Lemma choose_selected t sel :
  selected (choose t sel) = if bool_decide (t ∈ options sel) then Some t else None.
Proof. reflexivity. Qed.

Ltac text_fields :=
  repeat first [ rewrite val_of_text by discriminate ]; cbn [texts].

(** With the select in the document and an engine that reads the
    stored settings back from the markup as they are,
    [changeDbType] leaves the form with the inputs of the chosen
    back end only, filled from the stored settings: the four SQL
    inputs for "sql", the two Mongo inputs for "mongo", none of the
    six for any other type.  The select shows the chosen type when
    it has an option for it and nothing otherwise.  Every other
    control keeps its value. *)
Theorem changeDbType_shows_one_backend
    (type : option string) (p : Page) (sel : Select) :
  database_type (form p) = Some sel ->
  reads_verbatim (engine (form p)) (_settings p) (chosen_type type p) ->
  let t := chosen_type type p in
  let s := _settings p in
  let f' := form (changeDbType type p) in
  val "settings-database-type" f'
  = (if bool_decide (t ∈ options sel) then Some t else None)
  /\ (t = "sql" ->
      val "settings-database-sql-host" f' = Some (MysqlSettings.host (mysql s))
      /\ val "settings-database-sql-user" f'
         = Some (MysqlSettings.user (mysql s))
      /\ val "settings-database-sql-password" f'
         = Some (MysqlSettings.password (mysql s))
      /\ val "settings-database-sql-name" f'
         = Some (MysqlSettings.dbName (mysql s))
      /\ val "settings-database-mongo-uri" f' = None
      /\ val "settings-database-mongo-name" f' = None)
  /\ (t = "mongo" ->
      val "settings-database-mongo-uri" f' = Some (MongoSettings.uri (mongo s))
      /\ val "settings-database-mongo-name" f'
         = Some (MongoSettings.dbName (mongo s))
      /\ val "settings-database-sql-host" f' = None
      /\ val "settings-database-sql-user" f' = None
      /\ val "settings-database-sql-password" f' = None
      /\ val "settings-database-sql-name" f' = None)
  /\ (t <> "sql" -> t <> "mongo" ->
      Forall (fun id => val id f' = None) specific_ids)
  /\ (forall id, id ∉ "settings-database-type" :: specific_ids ->
      val id f' = val id (form p))
  /\ checks f' = checks (form p).
Proof.
  intros Hsel Hread. cbv zeta. unfold reads_verbatim in Hread.
  rewrite changeDbType_form, Hsel, Hread.
  split; [reflexivity |].
  destruct (stored_inputs_cases (_settings p) (chosen_type type p))
    as [[Ht ->] | [[Ht ->] | (Hs & Hm & ->)]];
    cbn [foldr specific_ids fst snd].
  - split_and!; try done.
    + intros _. text_fields. split_and!; by simplify_map_eq.
    + intros Hm. rewrite Ht in Hm. done.
    + intros id Hid.
      do 7 (apply not_elem_of_cons in Hid as [? Hid]).
      rewrite !val_of_text by done. cbn [texts]. by simplify_map_eq.
  - split_and!; try done.
    + intros Hm. rewrite Ht in Hm. done.
    + intros _. text_fields. split_and!; by simplify_map_eq.
    + intros id Hid.
      do 7 (apply not_elem_of_cons in Hid as [? Hid]).
      rewrite !val_of_text by done. cbn [texts]. by simplify_map_eq.
  - split_and!; try done.
    + intros _ _. repeat constructor; text_fields; by simplify_map_eq.
    + intros id Hid.
      do 7 (apply not_elem_of_cons in Hid as [? Hid]).
      rewrite !val_of_text by done. cbn [texts]. by simplify_map_eq.
Qed.

Lemma shows_selected t (sel : option Select) :
  shows ((choose t <$> sel) ≫= selected) t.
Proof.
  destruct sel as [sel |]; [| by left].
  change (shows (if bool_decide (t ∈ options sel) then Some t else None) t).
  case_bool_decide; [by right | by left].
Qed.

Lemma changeDbType_shows type p :
  reads_verbatim (engine (form p)) (_settings p) (chosen_type type p) ->
  let s := _settings p in
  let f' := form (changeDbType type p) in
  shows (val "settings-database-type" f') (chosen_type type p)
  /\ shows (val "settings-database-sql-host" f') (MysqlSettings.host (mysql s))
  /\ shows (val "settings-database-sql-user" f') (MysqlSettings.user (mysql s))
  /\ shows (val "settings-database-sql-password" f')
           (MysqlSettings.password (mysql s))
  /\ shows (val "settings-database-sql-name" f')
           (MysqlSettings.dbName (mysql s))
  /\ shows (val "settings-database-mongo-uri" f') (MongoSettings.uri (mongo s))
  /\ shows (val "settings-database-mongo-name" f')
           (MongoSettings.dbName (mongo s)).
Proof.
  intros Hread. cbv zeta. unfold reads_verbatim in Hread.
  rewrite changeDbType_form, Hread.
  split; [rewrite val_select; apply shows_selected |].
  text_fields.
  destruct (database_type (form p)) as [sel |].
  - destruct (stored_inputs_cases (_settings p) (chosen_type type p))
      as [[Ht ->] | [[Ht ->] | (Hs & Hm & ->)]];
      cbn [foldr specific_ids fst snd].
    + split_and!; (left; by simplify_map_eq) || (right; by simplify_map_eq).
    + split_and!; (left; by simplify_map_eq) || (right; by simplify_map_eq).
    + split_and!; left; by simplify_map_eq.
  - cbn [foldr specific_ids].
    split_and!; left; by simplify_map_eq.
Qed.

Lemma or_else_shows entered stored :
  shows entered stored -> or_else (fun x => x) entered stored = stored.
Proof. intros [-> | ->]; [done | apply or_else_same]. Qed.

Lemma empty_or_else_shows entered stored :
  shows entered stored -> empty_or_else entered stored = stored.
Proof. intros [-> | ->]; [done | by destruct stored]. Qed.

Lemma chosen_type_given t p : t <> "" -> chosen_type (Some t) p = t.
Proof. intros Ht. unfold chosen_type. by destruct t. Qed.

End ScriptForm.

Module ScriptIdle.
Import Script ScriptFacts ScriptForm.

Lemma reset_form_reads_back (p : Page) :
  dbType (_settings p) <> "" ->
  reads_verbatim (engine (form p)) (_settings p) (dbType (_settings p)) ->
  same_settings (getEnteredSettings (updateSettings p)) (_settings p).
Proof.
  intros Hty Hread. unfold same_settings.
  pose proof (changeDbType_shows (Some (dbType (_settings p))) p) as Hshown.
  rewrite chosen_type_given in Hshown by done.
  specialize (Hshown Hread). cbv zeta in Hshown.
  assert (_settings (changeDbType (Some (dbType (_settings p))) p)
          = _settings p) as Hs1 by reflexivity.
  unfold getEnteredSettings, updateSettings. cbv zeta.
  generalize dependent (changeDbType (Some (dbType (_settings p))) p).
  intros p1 (Hsel & Hhost & Huser & Hpass & Hname & Huri & Hmname) Hs1.
  cbn [form set_form _settings]. rewrite Hs1.
  repeat first [ rewrite val_set_checked
               | rewrite prop_set_val
               | rewrite val_set_val_eq by discriminate
               | rewrite val_set_val_ne by discriminate
               | rewrite prop_set_checked_eq
               | rewrite prop_set_checked_ne by discriminate ].
  cbn [dbType mysql mongo cores logging server
       ServerSettings.port ServerSettings.openBrowser].
  split_and!.
  - by apply or_else_shows.
  - rewrite (or_else_shows _ _ Hhost), (empty_or_else_shows _ _ Huser),
      (empty_or_else_shows _ _ Hpass), (or_else_shows _ _ Hname).
    by destruct (mysql (_settings p)).
  - rewrite (or_else_shows _ _ Huri), (or_else_shows _ _ Hmname).
    by destruct (mongo (_settings p)).
  - by destruct (prop_checked "settings-scan-logging" _).
  - by destruct (prop_checked "settings-server-browser" _).
  - apply or_else_text.
  - apply or_else_text.
Qed.

Lemma getEnteredSettings_sendToast header message p :
  getEnteredSettings (sendToast header message p) = getEnteredSettings p.
Proof. reflexivity. Qed.

(** With an engine that reads the configuration of the message back
    from the markup as it is: after an 'init' message with status
    "idle", and after a 'settings' message while idle, reading the
    untouched form back with [getEnteredSettings] gives the
    configuration of the message (cores and port as the text of
    their numbers).  A 'settings' message in any other status stores
    the configuration and leaves the form alone. *)
Theorem idle_form_reads_back (config : Settings) (p : Page) :
  dbType config <> "" ->
  reads_verbatim (engine (form p)) config (dbType config) ->
  (forall logs,
     same_settings (getEnteredSettings (receive (Init config "idle" logs) p))
                   config)
  /\ (_status p = Some "idle" ->
      same_settings (getEnteredSettings (receive (SettingsChanged config) p))
                    config)
  /\ (_status p <> Some "idle" ->
      form (receive (SettingsChanged config) p) = form p
      /\ _settings (receive (SettingsChanged config) p) = config).
Proof.
  intros Hty Hread. split; [| split].
  - intros logs. unfold receive. cbn [String.eqb Ascii.eqb Bool.eqb].
    rewrite getEnteredSettings_sendToast.
    by apply (reset_form_reads_back (set_status "idle" (set_settings config p))).
  - intros Hidle. unfold receive.
    rewrite bool_decide_eq_true_2 by exact Hidle.
    rewrite getEnteredSettings_sendToast.
    by apply (reset_form_reads_back (set_settings config p)).
  - intros Hbusy. unfold receive.
    by rewrite bool_decide_eq_false_2 by exact Hbusy.
Qed.

(** A password with a double quote in it does not come back: the
    markup ends the value at the quote. *)
Lemma quoted_password_is_cut :
  MysqlSettings.password
    (mysql (getEnteredSettings
              (receive (Init Examples.quoted_settings "idle" None)
                 (load Examples.settings_form))))
  = "p".
Proof. vm_compute. reflexivity. Qed.

End ScriptIdle.


(* ===================================================================== *)
(** ** The scan view and its listeners *)
(* ===================================================================== *)

Module ScriptScan.
Import Script ScriptFacts.

Lemma notify_progressBar msg ls : forall p,
  progressBar (foldl (notify msg) p ls) = progressBar p.
Proof.
  induction ls as [| l ls IH]; intros p; simpl; [done |].
  rewrite IH. by destruct l, msg.
Qed.

Lemma wired_startScan logs p : wired p -> wired (startScan logs p).
Proof.
  intros [Hl Hb]. unfold wired, startScan, current; cbn [listeners views progressBar].
  rewrite length_app, Nat.add_1_r, seq_S, flat_map_app, Hl. cbn [flat_map].
  rewrite app_nil_r. split; [done |].
  destruct (views p ++ _) eqn:E; [by destruct (views p) | done].
Qed.

Lemma wired_notify msg p :
  wired p -> wired (foldl (notify msg) p (listeners p)).
Proof.
  intros [Hl Hb]. unfold wired, current.
  destruct (notify_frame msg (listeners p) p) as [Hls Hlen].
  rewrite Hls, Hlen, notify_progressBar, Hb. split; [done |].
  unfold current.
  destruct (views p), (views (foldl _ _ _)); simpl in *; done.
Qed.

Lemma wired_receive msg p : wired p -> wired (receive msg p).
Proof.
  intros Hp. destruct msg; simpl.
  - destruct (String.eqb status "idle"); [exact Hp |].
    destruct (String.eqb status "scanning"); [| exact Hp].
    by apply wired_startScan.
  - case_bool_decide; exact Hp.
  - by apply wired_startScan.
  - by apply wired_notify.
  - by apply wired_notify.
  - by apply wired_notify.
Qed.

Lemma wired_run history : forall p, wired p -> wired (run history p).
Proof.
  induction history as [| msg history IH]; intros p Hp; simpl; [done |].
  by apply IH, wired_receive.
Qed.

Lemma wired_load f : wired (load f).
Proof. done. Qed.

(** On every page reached from [load], the listeners added by
    [startScan] are exactly one 'logs', one 'status' and one 'end'
    listener per scan view created so far, in that order (none is
    ever removed), and [progressBar] is the bar of the view in the
    document. *)
Theorem listeners_pile_up (f : Form) (history : list Message) :
  wired (run history (load f)).
Proof.
  unfold run. generalize (wired_load f). generalize (load f).
  induction history as [| msg history IH]; intros p Hp; [exact Hp |].
  cbn [foldl]. apply IH. destruct msg; cbn [receive].
  - destruct (String.eqb status "idle"); [exact Hp |].
    destruct (String.eqb status "scanning"); [| exact Hp].
    by apply wired_startScan.
  - case_bool_decide; exact Hp.
  - by apply wired_startScan.
  - by apply wired_notify.
  - by apply wired_notify.
  - by apply wired_notify.
Qed.

Lemma wired_listens p :
  wired p ->
  (OnStatus ∈ listeners p <-> views p <> [])
  /\ (OnEnd ∈ listeners p <-> views p <> []).
Proof.
  intros [Hl _]. rewrite Hl.
  destruct (views p) as [| v vs]; simpl.
  - split; split; try done; by intros ?%elem_of_nil.
  - split; split; try done; intros _.
    + right. by left.
    + right. right. by left.
Qed.

Lemma alter_twice {A} (f : A -> A) i (l : list A) :
  (forall x, f (f x) = f x) -> alter f i (alter f i l) = alter f i l.
Proof.
  intros Hf. apply list_eq. intros j.
  destruct (decide (i = j)) as [-> | Hne].
  - rewrite !list_lookup_alter_eq. destruct (l !! j); simpl; by rewrite ?Hf.
  - by rewrite !list_lookup_alter_ne.
Qed.

Lemma set_progress_twice html width v :
  set_progress html width (set_progress html width v)
  = set_progress html width v.
Proof. by destruct width. Qed.

Lemma show_status_twice text percentage p :
  show_status text percentage (show_status text percentage p)
  = show_status text percentage p.
Proof.
  unfold show_status, current; cbn [views set_views form].
  rewrite length_alter, alter_twice by apply set_progress_twice. done.
Qed.

Lemma alter_last {A} (f : A -> A) (l : list A) (x : A) :
  alter f (Nat.pred (length (l ++ [x]))) (l ++ [x]) = l ++ [f x].
Proof.
  rewrite length_app, Nat.add_1_r. cbn [Nat.pred Init.Nat.pred].
  induction l as [| y l IH]; [done |]. cbn [app length].
  change (alter f (S (length l)) (y :: l ++ [x]))
    with (y :: alter f (length l) (l ++ [x])).
  by rewrite IH.
Qed.

Lemma once_or_never (step : Page -> Page) (mine : Listener -> bool)
    (act : Page -> Listener -> Page) ls :
  (forall p, step (step p) = step p) ->
  (forall p l, act p l = if mine l then step p else p) ->
  forall p, foldl act p ls = if existsb mine ls then step p else p.
Proof.
  intros Hstep Hact. induction ls as [| l ls IH]; intros p; simpl; [done |].
  rewrite IH, Hact. destruct (mine l); simpl; [| done].
  rewrite Hstep. by destruct (existsb mine ls).
Qed.


Lemma existsb_wired p (mine : Listener -> bool) :
  wired p -> (mine OnStatus = true \/ mine OnEnd = true) ->
  existsb mine (listeners p) = match views p with [] => false | _ => true end.
Proof.
  intros [Hl _] Hm. rewrite Hl. destruct (views p) as [| v vs]; [done |].
  simpl. destruct Hm as [-> | ->]; by rewrite ?orb_true_r.
Qed.

(** A 'status' message on a page reached from [load]: without a scan
    view nothing changes; with one, only the view in the document
    changes, and it changes once whatever the number of listeners.
    Its progress area becomes the lines joined by [<br>]; the width
    of its bar becomes the one the engine stores for the percentage
    followed by a percent sign, and stays as it was when the engine
    stores none. *)
Theorem status_message_shows_progress
    (f : Form) (history : list Message) (text : list string)
    (percentage : Value) :
  let p := run history (load f) in
  let width := css_width (engine (form p)) (to_text percentage +:+ "%") in
  (views p = [] -> receive (Status text percentage) p = p)
  /\ (forall (before : list ScanView) (v : ScanView),
        views p = before ++ [v] ->
        receive (Status text percentage) p
        = set_views
            (before
             ++ [{| bar_classes := bar_classes v;
                    bar_width := default (bar_width v) width;
                    bar_text := bar_text v;
                    scan_progress_area := String.concat "<br>" text;
                    logs_area := logs_area v;
                    cancel_classes := cancel_classes v;
                    cancel_text := cancel_text v;
                    cancel_click := cancel_click v |}]) p).
Proof.
  cbv zeta. set (p := run history (load f)).
  assert (wired p) as Hp by apply wired_run, wired_load.
  assert (receive (Status text percentage) p
          = match views p with
            | [] => p
            | _ => show_status text percentage p
            end) as ->.
  { unfold receive.
    rewrite (once_or_never (show_status text percentage) is_status).
    - rewrite existsb_wired by (done || by left). by destruct (views p).
    - apply show_status_twice.
    - by intros q []. }
  split.
  - by intros ->.
  - intros before v Hv. unfold show_status, current. rewrite Hv.
    rewrite alter_last. by destruct before.
Qed.


Lemma elem_of_addClass c d (l : list string) :
  c ∈ addClass d l <-> c = d \/ c ∈ l.
Proof.
  unfold addClass. case_bool_decide as Hd.
  - split; [by right | intros [-> | ?]; done].
  - rewrite elem_of_app, list_elem_of_singleton. tauto.
Qed.

Lemma addClass_in c (l : list string) : c ∈ l -> addClass c l = l.
Proof. intros Hc. unfold addClass. by rewrite bool_decide_eq_true_2. Qed.

Lemma elem_of_removeClass c d (l : list string) :
  c ∈ removeClass d l <-> c <> d /\ c ∈ l.
Proof. unfold removeClass. by rewrite list_elem_of_filter. Qed.

Lemma removeClass_twice c (l : list string) :
  removeClass c (removeClass c l) = removeClass c l.
Proof.
  unfold removeClass. induction l as [| x l IH]; [done |].
  rewrite filter_cons. case_decide; [| done].
  rewrite filter_cons. case_decide; [| done]. by rewrite IH.
Qed.

Lemma removeClass_addClass c d (l : list string) :
  c <> d -> removeClass c (addClass d l) = addClass d (removeClass c l).
Proof.
  intros Hne. unfold addClass.
  rewrite (bool_decide_ext (d ∈ removeClass c l) (d ∈ l))
    by (rewrite elem_of_removeClass; split; [by intros [_ ?] | by split]).
  case_bool_decide; [done |].
  unfold removeClass. rewrite filter_app. f_equal.
  rewrite filter_cons. case_decide; [done | congruence].
Qed.

Ltac view_fields :=
  cbv [end_bar end_button set_bar set_cancel bar_classes bar_text bar_width
       scan_progress_area logs_area cancel_classes cancel_text cancel_click
       negb andb].

Ltac classes :=
  rewrite ?removeClass_addClass by done;
  rewrite ?removeClass_twice;
  repeat (rewrite addClass_in
            by (rewrite ?elem_of_addClass; auto 6 using eq_refl));
  try reflexivity.


Lemma endScan_views stopped error p :
  views (endScan stopped error p)
  = alter (end_button stopped error) (current p)
      (match progressBar p with
       | Some bar => alter (end_bar stopped error) bar (views p)
       | None => views p
       end).
Proof. reflexivity. Qed.

Lemma end_bar_twice stopped error v :
  end_bar stopped error (end_bar stopped error v) = end_bar stopped error v.
Proof.
  destruct v, stopped, error; view_fields; f_equal; classes.
Qed.

Lemma end_button_twice stopped error v :
  end_button stopped error (end_button stopped error v)
  = end_button stopped error v.
Proof.
  destruct v, stopped, error; view_fields; f_equal; classes.
Qed.

Lemma end_bar_button stopped error v :
  end_bar stopped error (end_button stopped error v)
  = end_button stopped error (end_bar stopped error v).
Proof. destruct v, stopped, error; view_fields; reflexivity. Qed.



Lemma end_views_length stopped error cur bar vs :
  length (end_views stopped error cur bar vs) = length vs.
Proof.
  unfold end_views. rewrite length_alter. destruct bar; [| done].
  by rewrite length_alter.
Qed.

Lemma end_views_twice stopped error cur bar vs :
  end_views stopped error cur bar (end_views stopped error cur bar vs)
  = end_views stopped error cur bar vs.
Proof.
  unfold end_views. apply list_eq. intros j.
  destruct bar as [b |]; rewrite !list_lookup_alter;
    repeat case_decide; subst; try congruence;
    match goal with |- context [vs !! ?k] => destruct (vs !! k) as [v |] end;
    cbn [fmap option_fmap option_map];
    rewrite ?end_bar_button, ?end_bar_twice, ?end_button_twice;
    reflexivity.
Qed.

Lemma show_end_fields code stopped p :
  show_end code stopped p
  = {| _settings := _settings p;
       _status := Some "end";
       progressBar := progressBar p;
       form := form p;
       views := end_views stopped (negb (bool_decide (code = VNum 0)))
                  (current p) (progressBar p) (views p);
       listeners := listeners p;
       toast := Some ("Scan stopped",
                      "Scan ended with an exit code " +:+ to_text code) |}.
Proof. reflexivity. Qed.

Lemma show_end_twice code stopped p :
  show_end code stopped (show_end code stopped p) = show_end code stopped p.
Proof.
  rewrite (show_end_fields code stopped (show_end code stopped p)).
  rewrite (show_end_fields code stopped p).
  cbn [_settings _status progressBar form views listeners toast].
  unfold current; cbn [views].
  by rewrite end_views_length, end_views_twice.
Qed.

Ltac class_goal :=
  lazymatch goal with
  | |- _ ∉ _ =>
      rewrite ?elem_of_addClass, ?elem_of_removeClass;
      let Hin := fresh "Hin" in
      intros Hin; decompose [or and] Hin; congruence
  | |- _ ∈ _ =>
      rewrite ?elem_of_addClass, ?elem_of_removeClass;
      repeat first [ left; reflexivity | right ]
  | |- _ = _ => reflexivity
  end.

Lemma ended_view stopped error v :
  let v' := end_button stopped error (end_bar stopped error v) in
  ("progress-bar-striped" ∉ bar_classes v')
  /\ cancel_text v' = "Back" /\ cancel_click v' = Some Reload
  /\ (stopped = true ->
      "bg-warning" ∈ bar_classes v' /\ bar_text v' = "Scan cancelled")
  /\ (error = true -> "bg-danger" ∈ bar_classes v')
  /\ (stopped = false -> error = false ->
      "bg-success" ∈ bar_classes v'
      /\ "btn-outline-success" ∈ cancel_classes v'
      /\ "btn-outline-danger" ∉ cancel_classes v')
  /\ logs_area v' = logs_area v
  /\ scan_progress_area v' = scan_progress_area v
  /\ bar_width v' = bar_width v.
Proof.
  cbv zeta. destruct v as [bc bw bt spa la cc ct ck].
  destruct stopped, error; view_fields.
  all: split; [class_goal |].
  all: split; [reflexivity |].
  all: split; [reflexivity |].
  all: split;
    [first [ intros Hs; discriminate Hs | intros _; split; class_goal ] |].
  all: split; [first [ intros He; discriminate He | intros _; class_goal ] |].
  all: split;
    [first [ intros Hs; discriminate Hs
           | intros _ He; discriminate He
           | intros _ _; split_and!; class_goal ] |].
  all: split_and!; reflexivity.
Qed.

Lemma receive_end code stopped p :
  wired p ->
  receive (End code stopped) p
  = match views p with
    | [] => p
    | _ => show_end code stopped p
    end.
Proof.
  intros Hp. unfold receive.
  rewrite (once_or_never (show_end code stopped) is_end).
  - rewrite existsb_wired by (done || by right). by destruct (views p).
  - apply show_end_twice.
  - by intros q [].
Qed.

Lemma last_show_end code stopped p v :
  wired p -> last (views p) = Some v ->
  last (views (show_end code stopped p))
  = Some (end_button stopped (negb (bool_decide (code = VNum 0)))
            (end_bar stopped (negb (bool_decide (code = VNum 0))) v)).
Proof.
  intros [_ Hbar] Hlast.
  destruct (views p) as [| v0 vs0] eqn:Hviews; [done |].
  rewrite last_lookup, show_end_fields. cbn [views].
  rewrite end_views_length. unfold end_views.
  rewrite Hbar. unfold current. rewrite Hviews.
  rewrite list_lookup_alter_eq, list_lookup_alter_eq, <- last_lookup, Hlast.
  reflexivity.
Qed.

(** An 'end' message on a page reached from [load]: without a scan
    view nothing changes; with one, the page is the one a single call
    of [endScan] after the toast gives, however many 'end' listeners
    are registered, the status is "end" and the toast tells the exit
    code. *)
Theorem end_message_ends_the_scan
    (f : Form) (history : list Message) (code : Value) (stopped : bool) :
  let p := run history (load f) in
  let p' := receive (End code stopped) p in
  p' = match views p with
       | [] => p
       | _ => show_end code stopped p
       end
  /\ (views p <> [] ->
      _status p' = Some "end"
      /\ toast p' = Some ("Scan stopped",
                          "Scan ended with an exit code " +:+ to_text code)
      /\ length (views p') = length (views p)
      /\ listeners p' = listeners p).
Proof.
  cbv zeta. set (p := run history (load f)).
  assert (wired p) as Hp by apply wired_run, wired_load.
  rewrite (receive_end code stopped p Hp).
  split; [done |]. intros Hvs.
  destruct (views p) as [| v0 vs0] eqn:Hviews; [done |].
  split; [done |]. split; [done |]. split; [| done].
  unfold show_end. rewrite endScan_views. cbn [views sendToast progressBar].
  rewrite length_alter. destruct (progressBar p); by rewrite ?length_alter, Hviews.
Qed.

(** The scan view in the document after an 'end' message, on a page
    reached from [load]: its bar is no longer striped, its button reads
    "Back" and reloads the page; a cancelled scan gives the bar the
    class [bg-warning] and the text "Scan cancelled", an exit code
    other than 0 the class [bg-danger], and a scan that ended by itself
    with code 0 the class [bg-success], the button passing from
    [btn-outline-danger] to [btn-outline-success].  The log area and
    the progress shown stay as they were. *)
Theorem end_message_marks_the_view
    (f : Form) (history : list Message) (code : Value) (stopped : bool)
    (v : ScanView) :
  let p := run history (load f) in
  let p' := receive (End code stopped) p in
  last (views p) = Some v ->
  exists v',
    last (views p') = Some v'
    /\ ("progress-bar-striped" ∉ bar_classes v')
    /\ cancel_text v' = "Back" /\ cancel_click v' = Some Reload
    /\ (stopped = true ->
        "bg-warning" ∈ bar_classes v' /\ bar_text v' = "Scan cancelled")
    /\ (code <> VNum 0 -> "bg-danger" ∈ bar_classes v')
    /\ (stopped = false -> code = VNum 0 ->
        "bg-success" ∈ bar_classes v'
        /\ "btn-outline-success" ∈ cancel_classes v'
        /\ "btn-outline-danger" ∉ cancel_classes v')
    /\ logs_area v' = logs_area v
    /\ scan_progress_area v' = scan_progress_area v
    /\ bar_width v' = bar_width v.
Proof.
  cbv zeta. set (p := run history (load f)). intros Hlast.
  assert (wired p) as Hp by apply wired_run, wired_load.
  rewrite (receive_end code stopped p Hp).
  destruct (views p) as [| v0 vs0] eqn:Hviews; [done |].
  rewrite <- Hviews in *.
  eexists. split; [by apply last_show_end |].
  destruct (ended_view stopped (negb (bool_decide (code = VNum 0))) v)
    as (H1 & H2 & H3 & H4 & H5 & H6 & H7 & H8 & H9).
  split_and!; try done.
  - intros Hcode. apply H5. by rewrite bool_decide_eq_false_2.
  - intros Hs Hcode. apply H6; [done |]. by rewrite bool_decide_eq_true_2.
Qed.

End ScriptScan.


(* ===================================================================== *)
(** ** The log area *)
(* ===================================================================== *)

Module ScriptLogs.
Import Script ScriptFacts DateFacts.

Lemma replace_newlines_append a b :
  replace_newlines (a +:+ b) = replace_newlines a +:+ replace_newlines b.
Proof.
  induction a as [| c a IH]; [reflexivity |].
  change (replace_newlines (String c (a +:+ b))
          = replace_newlines (String c a) +:+ replace_newlines b).
  cbn [replace_newlines]. rewrite IH.
  destruct (Ascii.eqb c "010"); [| reflexivity].
  by rewrite append_assoc.
Qed.

Lemma replace_newlines_clean s :
  occurs "010" (replace_newlines s) = false.
Proof.
  induction s as [| c s IH]; [reflexivity |].
  cbn [replace_newlines]. destruct (Ascii.eqb c "010") eqn:Hc.
  - rewrite occurs_append, IH. reflexivity.
  - cbn [occurs]. by rewrite Hc, IH.
Qed.

Lemma replace_newlines_without s :
  occurs "010" s = false -> replace_newlines s = s.
Proof.
  induction s as [| c s IH]; [reflexivity |].
  cbn [occurs replace_newlines]. intros [Hc Hs]%orb_false_elim.
  by rewrite Hc, IH.
Qed.

Lemma write_logs_all html ls (vs : list ScanView) :
  (forall i, (i < length vs)%nat -> OnLogs i ∈ ls) ->
  write_logs html ls vs = set_logs_area html <$> vs.
Proof.
  intros Hall. apply list_eq. intros i.
  rewrite write_logs_lookup, list_lookup_fmap.
  destruct (vs !! i) as [v |] eqn:Hi.
  - rewrite bool_decide_eq_true_2; [done |].
    apply Hall. by eapply lookup_lt_Some.
  - by case_bool_decide.
Qed.

(** A 'logs' message on a page reached from [load] writes its text,
    newlines turned into [<br>], into the log area of every scan view
    created so far, the detached ones included, and changes nothing
    else.  The text written holds no newline, is the message itself
    when that holds none, and for a buffer that grew is the text of the
    old buffer followed by the text of what was added. *)
Theorem logs_message_writes_every_view
    (f : Form) (history : list Message) (args more : string) :
  let p := run history (load f) in
  receive (Logs args) p
  = set_views (set_logs_area (replace_newlines args) <$> views p) p
  /\ occurs "010" (replace_newlines args) = false
  /\ (occurs "010" args = false -> replace_newlines args = args)
  /\ replace_newlines (args +:+ more)
     = replace_newlines args +:+ replace_newlines more.
Proof.
  cbv zeta. split; [| split; [| split]].
  - rewrite receive_logs. f_equal.
    apply write_logs_all, listened_run, listened_load.
  - apply replace_newlines_clean.
  - apply replace_newlines_without.
  - apply replace_newlines_append.
Qed.

End ScriptLogs.

(* ===================================================================== *)
(** ** The properties at work on the examples *)
(* ===================================================================== *)

Module Witnesses.
Import Database Wire MysqlServer Examples.

Lemma addData_stops_before_unwritable_review_witness :
  addData driver utc
    (flow_with [review 1 "good"; undated_review; review 3 "never"])
    (connected "automate-scanner" provisioned)
  = (Rejected (RangeError "Invalid time value"),
     advance after_one_review
       (flat_map (fun q' => round q' None)
          [flow_statement; review_statement (review 1 "good")])
       (connected "automate-scanner" provisioned)).
Proof.
  apply (DatabaseSettles.addData_stops_before_unwritable_review driver utc
           (flow_with [review 1 "good"; undated_review; review 3 "never"])
           (connected "automate-scanner" provisioned) root
           [review 1 "good"] [review 3 "never"] undated_review
           flow_statement [review_statement (review 1 "good")]
           after_one_review).
  - reflexivity.
  - reflexivity.
  - vm_compute. reflexivity.
  - repeat constructor.
  - vm_compute. reflexivity.
  - vm_compute. reflexivity.
Defined.

Lemma addData_rows_read_back_witness :
  exists fq qs,
    flow_query utc "automate-scanner"
      (flow_with [review 1 "good"; review 2 "fine"]) = inr fq
    /\ Forall2 (fun r q =>
                  review_query utc "automate-scanner"
                    (flow_with [review 1 "good"; review 2 "fine"]) r = inr q)
               [review 1 "good"; review 2 "fine"] qs
    /\ table_rows "automate-scanner" "flows"
         (server (addData driver utc
                    (flow_with [review 1 "good"; review 2 "fine"])
                    (connected "automate-scanner" provisioned)).2)
       = table_rows "automate-scanner" "flows" provisioned ++ [params fq]
    /\ table_rows "automate-scanner" "reviews"
         (server (addData driver utc
                    (flow_with [review 1 "good"; review 2 "fine"])
                    (connected "automate-scanner" provisioned)).2)
       = table_rows "automate-scanner" "reviews" provisioned
         ++ (params <$> qs).
Proof.
  apply (MysqlRows.addData_rows_read_back utc
           (flow_with [review 1 "good"; review 2 "fine"])
           (connected "automate-scanner" provisioned)).
  vm_compute. reflexivity.
Defined.

Lemma addData_leaves_partial_rows_witness :
  (addData driver utc flow (connected "automate-scanner" provisioned)).1
  = Rejected (DriverError "ER_DUP_ENTRY")
  /\ table_rows "automate-scanner" "flows"
       (server (addData driver utc flow
                  (connected "automate-scanner" provisioned)).2)
     = table_rows "automate-scanner" "flows" provisioned
       ++ [params flow_statement]
  /\ table_rows "automate-scanner" "reviews"
       (server (addData driver utc flow
                  (connected "automate-scanner" provisioned)).2)
     = table_rows "automate-scanner" "reviews" provisioned
       ++ (params <$> [review_statement (review 1 "good");
                       review_statement (review 2 "fine")]).
Proof.
  apply (MysqlRows.addData_leaves_partial_rows utc flow
           (connected "automate-scanner" provisioned) root
           [review 1 "good"; review 2 "fine"] [review 4 "late"]
           (review 1 "again") flow_statement
           (review_statement (review 1 "again"))
           [review_statement (review 1 "good");
            review_statement (review 2 "fine")]
           (DriverError "ER_DUP_ENTRY") after_two_reviews after_two_reviews).
  - reflexivity.
  - reflexivity.
  - vm_compute. reflexivity.
  - repeat constructor.
  - vm_compute. reflexivity.
  - vm_compute. reflexivity.
  - vm_compute. reflexivity.
Defined.

Lemma deleteTable_drops_the_table_witness :
  (deleteTable driver "flows" (connected "automate-scanner" provisioned)).1
  = Fulfilled tt
  /\ databases
       (server (deleteTable driver "flows"
                  (connected "automate-scanner" provisioned)).2)
     = <["automate-scanner" := delete "flows" fresh_tables]>
         (databases provisioned)
  /\ table_rows "automate-scanner" "flows"
       (server (deleteTable driver "flows"
                  (connected "automate-scanner" provisioned)).2) = []
  /\ forall other, other <> "flows" ->
       table_rows "automate-scanner" other
         (server (deleteTable driver "flows"
                    (connected "automate-scanner" provisioned)).2)
       = table_rows "automate-scanner" other provisioned.
Proof.
  apply (MysqlTables.deleteTable_drops_the_table
           (connected "automate-scanner" provisioned) root
           "automate-scanner" "flows" fresh_tables []).
  - reflexivity.
  - reflexivity.
  - reflexivity.
  - vm_compute. reflexivity.
  - vm_compute. reflexivity.
  - reflexivity.
Defined.

Lemma deleteTable_rejected_beside_longer_name_witness :
  (deleteTable driver "flows" (connected "automate-scanner" archived)).1
  = Rejected (DriverError "ER_BAD_TABLE_ERROR")
  /\ server (deleteTable driver "flows"
               (connected "automate-scanner" archived)).2 = archived.
Proof.
  apply (MysqlTables.deleteTable_rejected_beside_longer_name
           (connected "automate-scanner" archived) root
           "automate-scanner" "flows" "" "_old"
           {[ "flows_old" := [[VNum 1]]; "reviews" := [] ]} [[VNum 1]]).
  - reflexivity.
  - reflexivity.
  - reflexivity.
  - vm_compute. reflexivity.
  - vm_compute. reflexivity.
  - vm_compute. reflexivity.
  - reflexivity.
Defined.

Lemma end_message_marks_the_view_witness :
  exists v',
    last (Script.views
            (Script.receive (Script.End (VNum 0) false)
               (Script.run [Script.StartScan] (Script.load settings_form))))
    = Some v'
    /\ "bg-success" ∈ Script.bar_classes v'
    /\ Script.cancel_text v' = "Back".
Proof.
  destruct (ScriptScan.end_message_marks_the_view settings_form
              [Script.StartScan] (VNum 0) false
              (Script.set_cancel (Script.cancel_classes Script.fresh_view)
                 (Script.cancel_text Script.fresh_view)
                 (Some Script.EmitStopScan) Script.fresh_view)
              eq_refl)
    as (v' & Hlast & _ & Hback & _ & _ & _ & Hok & _).
  exists v'. split; [exact Hlast |]. split; [| exact Hback].
  by apply Hok.
Defined.

Lemma changeDbType_shows_one_backend_witness :
  Script.val "settings-database-type"
    (Script.form (Script.changeDbType (Some "mongo")
                    (Script.load settings_form))) = Some "mongo"
  /\ Script.val "settings-database-mongo-uri"
       (Script.form (Script.changeDbType (Some "mongo")
                       (Script.load settings_form)))
     = Some "mongodb://localhost/"
  /\ Script.val "settings-database-sql-host"
       (Script.form (Script.changeDbType (Some "mongo")
                       (Script.load settings_form))) = None
  /\ Script.val "settings-scan-cores"
       (Script.form (Script.changeDbType (Some "mongo")
                       (Script.load settings_form))) = Some "4".
Proof.
  destruct (ScriptForm.changeDbType_shows_one_backend (Some "mongo")
              (Script.load settings_form)
              {| Script.options := ["sql"; "mongo"];
                 Script.selected := Some "sql" |})
    as (Hselect & _ & Hmongo & _ & Hother & _).
  - vm_compute. reflexivity.
  - vm_compute. reflexivity.
  - destruct (Hmongo eq_refl) as (Huri & _ & Hhost & _).
    split; [exact Hselect |]. split; [exact Huri |]. split; [exact Hhost |].
    rewrite Hother; [reflexivity |].
    vm_compute. intros Hin.
    repeat (apply elem_of_cons in Hin as [Heq | Hin]; [discriminate Heq |]).
    by apply elem_of_nil in Hin.
Defined.

Lemma idle_form_reads_back_witness :
  (forall logs,
     Script.same_settings
       (Script.getEnteredSettings
          (Script.receive (Script.Init Script.default_settings "idle" logs)
             (Script.load settings_form)))
       Script.default_settings)
  /\ (Script._status (Script.load settings_form) = Some "idle" ->
      Script.same_settings
        (Script.getEnteredSettings
           (Script.receive (Script.SettingsChanged Script.default_settings)
              (Script.load settings_form)))
        Script.default_settings)
  /\ (Script._status (Script.load settings_form) <> Some "idle" ->
      Script.form (Script.receive (Script.SettingsChanged Script.default_settings)
                     (Script.load settings_form))
      = Script.form (Script.load settings_form)
      /\ Script._settings
           (Script.receive (Script.SettingsChanged Script.default_settings)
              (Script.load settings_form))
         = Script.default_settings).
Proof.
  apply (ScriptIdle.idle_form_reads_back Script.default_settings
           (Script.load settings_form)).
  - discriminate.
  - vm_compute. reflexivity.
Defined.

(** A percentage below zero, on the view of a scan that has just
    started: the bar ends at the width the engine makes of it. *)
Lemma status_message_shows_progress_witness :
  Script.bar_width
    <$> last (Script.views
                (Script.receive
                   (Script.Status ["Scanning"; "3 of 10"] (Js.VNum (-5)))
                   (Script.run [Script.StartScan]
                      (Script.load settings_form))))
  = Some "0%"
  /\ Script.scan_progress_area
       <$> last (Script.views
                   (Script.receive
                      (Script.Status ["Scanning"; "3 of 10"] (Js.VNum (-5)))
                      (Script.run [Script.StartScan]
                         (Script.load settings_form))))
     = Some "Scanning<br>3 of 10".
Proof.
  destruct (ScriptScan.status_message_shows_progress settings_form
              [Script.StartScan] ["Scanning"; "3 of 10"] (Js.VNum (-5)))
    as [_ Hview].
  rewrite (Hview [] _ eq_refl).
  split; vm_compute; reflexivity.
Defined.

End Witnesses.
